(** * MyraSec external-dns webhook: the change-reconciliation engine

    A shallow embedding of the Go package [myrasecprovider]: value
    formatting, the ownership check, the safety policy for private
    addresses, the three mutation paths ([processCreateActions],
    [processUpdateActions], [processDeleteActions]), the domain selection
    and the task executor of [ApplyChangesWithWorkers], followed by the
    properties established about them.

    Go strings are byte sequences and are modelled by [string]; Go [int]
    values by [Z] (the program compares them and never computes with
    them); Go maps by stdpp's [gmap] and [gset]; the backend client
    interface by a type class over an abstract backend state; a Go function
    that returns an [error] by a state-and-error monad whose state holds the
    backend and the trace of the calls that reached it.

    The Go semantics taken are those of the toolchain the Dockerfile
    builds with (Go 1.24): the variable of a [for ... range] loop is fresh
    in every iteration, and [net.ParseIP] refuses decimal fields with a
    leading zero. *)

From Stdlib Require Import ZArith Ascii String List Lia Permutation.
From stdpp Require Import base gmap sets list strings.

Local Open Scope Z_scope.

(** ** Go's [strings] package *)

Module Str.

(** [strings.HasPrefix]. *)
Fixpoint HasPrefix (s pre : string) : bool :=
  match pre, s with
  | EmptyString, _ => true
  | String _ _, EmptyString => false
  | String a pre', String b s' => if Ascii.eqb a b then HasPrefix s' pre' else false
  end.

(** [strings.Contains]: [sub] occurs somewhere in [s]. *)
Fixpoint Contains (s sub : string) : bool :=
  HasPrefix s sub ||
  match s with
  | EmptyString => false
  | String _ s' => Contains s' sub
  end.

Definition rev (s : string) : string :=
  string_of_list_ascii (List.rev (list_ascii_of_string s)).

(** [strings.HasSuffix]. *)
Definition HasSuffix (s suf : string) : bool := HasPrefix (rev s) (rev suf).

(** [strings.TrimPrefix]. *)
Definition TrimPrefix (s pre : string) : string :=
  if HasPrefix s pre then String.substring (String.length pre) (String.length s - String.length pre) s
  else s.

(** Membership of a byte in an ASCII cutset. *)
Fixpoint inCutset (c : ascii) (cutset : string) : bool :=
  match cutset with
  | EmptyString => false
  | String d cutset' => Ascii.eqb c d || inCutset c cutset'
  end.

Fixpoint TrimLeft (s cutset : string) : string :=
  match s with
  | EmptyString => EmptyString
  | String c s' => if inCutset c cutset then TrimLeft s' cutset else s
  end.

Fixpoint TrimRight (s cutset : string) : string :=
  match s with
  | EmptyString => EmptyString
  | String c s' =>
      match TrimRight s' cutset with
      | EmptyString => if inCutset c cutset then EmptyString else String c EmptyString
      | r => String c r
      end
  end.

(** [strings.Trim] for an ASCII cutset: the right end is trimmed first,
    then the left end, as the library does. *)
Definition Trim (s cutset : string) : string := TrimLeft (TrimRight s cutset) cutset.

(** [strings.ReplaceAll] for a non-empty [old]: the occurrences are
    replaced from left to right without overlap; [skip] counts the bytes
    of the occurrence being replaced that are still to be dropped. (For an
    empty [old] the library inserts [new] around every rune; the provider
    never calls it so, and the model returns [s] unchanged there.) *)
Fixpoint replaceFrom (old new : string) (s : string) (skip : nat) : string :=
  match s with
  | EmptyString => EmptyString
  | String c s' =>
      match skip with
      | S k => replaceFrom old new s' k
      | O => if HasPrefix s old
             then new +:+ replaceFrom old new s' (Nat.pred (String.length old))
             else String c (replaceFrom old new s' O)
      end
  end.

Definition ReplaceAll (s old new : string) : string :=
  match old with
  | EmptyString => s
  | _ => replaceFrom old new s O
  end.

(** [strings.Split] for a one-byte separator: the parts between the
    occurrences of [sep]. *)
Fixpoint Split (s : string) (sep : ascii) : list string :=
  match s with
  | EmptyString => [EmptyString]
  | String c s' =>
      if Ascii.eqb c sep then EmptyString :: Split s' sep
      else
        match Split s' sep with
        | part :: parts => String c part :: parts
        | [] => [String c EmptyString]
        end
  end.

(** [strings.ToLower] on the ASCII letters. Two code points outside ASCII
    have an ASCII lower case ([U+0130] gives [i], [U+212A] gives [k]); they
    are mapped as well, so that a comparison of the result with an ASCII
    word gives what the library gives. Other bytes are kept. *)
Definition lowerByte (c : ascii) : ascii :=
  let n := nat_of_ascii c in
  if (Nat.leb 65 n && Nat.leb n 90)%bool then ascii_of_nat (n + 32) else c.

Fixpoint ToLower (s : string) : string :=
  match s with
  | String "196" (String "176" s') => String "i" (ToLower s')
  | String "226" (String "132" (String "170" s')) => String "k" (ToLower s')
  | String c s' => String (lowerByte c) (ToLower s')
  | EmptyString => EmptyString
  end.

End Str.

(** ** Value formatter *)

Definition RecordTypeA : string := "A".
Definition RecordTypeAAAA : string := "AAAA".
Definition RecordTypeCNAME : string := "CNAME".
Definition RecordTypeTXT : string := "TXT".
Definition RecordTypeNS : string := "NS".
Definition RecordTypeSRV : string := "SRV".
Definition RecordTypeMX : string := "MX".

(** The double quote, the single quote, and the three white-space bytes
    that [formatTXTValue] rewrites. *)
Definition dquote : ascii := "034".
Definition squote : ascii := "039".
Definition newline : ascii := "010".
Definition creturn : ascii := "013".
Definition tab : ascii := "009".

Definition str1 (c : ascii) : string := String c EmptyString.

(** [formatTXTValue] sanitizes a TXT record value by removing quotes,
    newlines, etc. *)
Definition formatTXTValue (value : string) : string :=
  let value := Str.Trim value (String dquote (str1 squote)) in
  let value := Str.ReplaceAll value (str1 dquote) EmptyString in
  let value := Str.ReplaceAll value (str1 newline) " " in
  let value := Str.ReplaceAll value (str1 creturn) " " in
  let value := Str.ReplaceAll value (str1 tab) " " in
  value.

(** [formatRecordValue] cleans the record value based on the record type. *)
Definition formatRecordValue (value recordType : string) : string :=
  if String.eqb recordType RecordTypeTXT then formatTXTValue value else value.

(** [ensureTrailingDot], [stripTrailingDot]. *)
Definition ensureTrailingDot (name : string) : string :=
  if String.eqb name EmptyString then name
  else if negb (Str.HasSuffix name ".") then name +:+ "."
  else name.

Definition stripTrailingDot (name : string) : string :=
  if Str.HasSuffix name "."
  then String.substring 0 (String.length name - 1) name
  else name.

(** ** Ownership check *)

(** [isOwnedByExternalDNS]: both markers occur in the TXT value. *)
Definition isOwnedByExternalDNS (txtValue owner : string) : bool :=
  Str.Contains txtValue "heritage=external-dns" &&
  Str.Contains txtValue ("external-dns/owner=" +:+ owner).




(** [extractResourceFromTXT]: the text after [external-dns/resource=] in
    the first comma-separated part that starts so. *)
Definition extractResourceFromTXT (txtValue : string) : string :=
  let parts := Str.Split txtValue "," in
  match List.find (fun part => Str.HasPrefix part "external-dns/resource=") parts with
  | Some part => Str.TrimPrefix part "external-dns/resource="
  | None => EmptyString
  end.

(** ** Go errors *)

(** An [error] value: [errorString] is what [errors.New] and [fmt.Errorf]
    without [%w] build, [wrapError] what [fmt.Errorf] builds with [%w]
    (the text before the verb, and the wrapped error), [NumError] is
    [strconv.NumError]. Sentinel errors are identified by their text. *)
Inductive error : Type :=
| errorString (s : string)
| wrapError (msg : string) (err : error)
| NumError (Func Num : string) (Err : error).

(** [strconv.Quote], for the bytes that need no escape other than the
    backslash and the double quote. *)
Fixpoint quoteBody (s : string) : string :=
  match s with
  | EmptyString => EmptyString
  | String c s' =>
      if (Ascii.eqb c dquote || Ascii.eqb c "092")%bool
      then String "092" (String c (quoteBody s'))
      else String c (quoteBody s')
  end.

Definition Quote (s : string) : string := String dquote (quoteBody s +:+ str1 dquote).

(** The [Error()] method. *)
Fixpoint Error (e : error) : string :=
  match e with
  | errorString s => s
  | wrapError msg err => msg +:+ Error err
  | NumError Func Num Err =>
      "strconv." +:+ Func +:+ ": parsing " +:+ Quote Num +:+ ": " +:+ Error Err
  end.

Definition ErrUpdateSlicesMismatch : error := errorString "update slices have different lengths".
Definition ErrDomainNotFound : error := errorString "domain not found".
Definition ErrSyntax : error := errorString "invalid syntax".
Definition ErrRange : error := errorString "value out of range".

(** ** Go's [strconv] package *)

Module Strconv.

Definition digitVal (c : ascii) : option Z :=
  let n := Z.of_nat (nat_of_ascii c) in
  if (48 <=? n) && (n <=? 57) then Some (n - 48) else None.

(** The value of a non-empty run of decimal digits. *)
Fixpoint digits (s : string) (acc : Z) : option Z :=
  match s with
  | EmptyString => Some acc
  | String c s' =>
      match digitVal c with
      | Some d => digits s' (acc * 10 + d)
      | None => None
      end
  end.

Definition maxInt : Z := 2 ^ 63 - 1.
Definition minInt : Z := - 2 ^ 63.

(** [strconv.Atoi] on a 64-bit platform: an optional sign, then one or
    more decimal digits; a value outside the [int] range is a range
    error. *)
Definition Atoi (s : string) : error + Z :=
  let body :=
    match s with
    | String "-" s' => (true, s')
    | String "+" s' => (false, s')
    | _ => (false, s)
    end in
  match snd body with
  | EmptyString => inl (NumError "Atoi" s ErrSyntax)
  | ds =>
      match digits ds 0 with
      | None => inl (NumError "Atoi" s ErrSyntax)
      | Some n =>
          let v := if fst body then - n else n in
          if (minInt <=? v) && (v <=? maxInt) then inr v
          else inl (NumError "Atoi" s ErrRange)
      end
  end.

Definition digitChar (d : Z) : ascii := ascii_of_nat (Z.to_nat (48 + d)).

(** The decimal digits of [n >= 0], most significant first; [fuel]
    bounds the number of digits. *)
Fixpoint utoa (fuel : nat) (n : Z) (acc : string) : string :=
  match fuel with
  | O => acc
  | S fuel' =>
      let acc' := String (digitChar (n mod 10)) acc in
      if n <? 10 then acc' else utoa fuel' (n / 10) acc'
  end.

(** [strconv.Itoa]. *)
Definition Itoa (n : Z) : string :=
  if n <? 0 then String "-" (utoa 20 (- n) EmptyString)
  else utoa 20 n EmptyString.

End Strconv.


(** ** Go's [net] package: addresses and networks *)

Module Net.

(** [net.IP]: a slice of 4 or 16 bytes. *)
Definition IP : Type := list Z.

Definition IPv4len : nat := 4.
Definition IPv6len : nat := 16.

Definition hexVal (c : ascii) : option Z :=
  let n := Z.of_nat (nat_of_ascii c) in
  if (48 <=? n) && (n <=? 57) then Some (n - 48)
  else if (97 <=? n) && (n <=? 102) then Some (n - 97 + 10)
  else if (65 <=? n) && (n <=? 70) then Some (n - 65 + 10)
  else None.

(** [parseIPv4Fields]: four decimal fields separated by dots, each at
    most 255 and without a leading zero. [fields] holds the fields read
    so far, last first. *)
Fixpoint parseIPv4Fields (s : string) (val : Z) (digLen : nat) (fields : list Z)
  : option (list Z) :=
  match s with
  | EmptyString =>
      if Nat.ltb (length fields) 3 then None else Some (List.rev (val :: fields))
  | String c s' =>
      match Strconv.digitVal c with
      | Some d =>
          if Nat.eqb digLen 1 && (val =? 0) then None
          else
            let val' := val * 10 + d in
            if 255 <? val' then None else parseIPv4Fields s' val' (S digLen) fields
      | None =>
          if Ascii.eqb c "." then
            if Nat.eqb digLen 0 || String.eqb s' EmptyString then None
            else if Nat.eqb (length fields) 3 then None
            else parseIPv4Fields s' 0 0%nat (val :: fields)
          else None
      end
  end.

Definition parseIPv4 (s : string) : option (list Z) := parseIPv4Fields s 0 0%nat [].

(** The hexadecimal number at the head of [s]: the number of digits, the
    value and the rest of the string; a fifth digit is refused. *)
Fixpoint scanHex (s : string) (off : nat) (acc : Z) : option (nat * Z * string) :=
  match s with
  | EmptyString => Some (off, acc, s)
  | String c s' =>
      match hexVal c with
      | None => Some (off, acc, s)
      | Some d =>
          let acc' := acc * 16 + d in
          if Nat.ltb 3 off then None
          else if 65535 <? acc' then None
          else scanHex s' (S off) acc'
      end
  end.

(** The loop of [parseIPv6]: [ip] holds the bytes written so far (the
    index [i] of the source is its length), [ellipsis] the position of
    the double colon. The result carries the unread rest of the string. *)
Fixpoint parseIPv6Loop (fuel : nat) (s : string) (ip : list Z) (ellipsis : option nat)
  : option (list Z * option nat * string) :=
  if Nat.leb IPv6len (length ip) then Some (ip, ellipsis, s)
  else
    match fuel with
    | O => None
    | S fuel' =>
        match scanHex s 0%nat 0 with
        | None => None
        | Some (off, acc, rest) =>
            if Nat.eqb off 0 then None
            else if Str.HasPrefix rest "." then
              if (match ellipsis with None => true | Some _ => false end)
                 && negb (Nat.eqb (length ip) 12) then None
              else if Nat.ltb IPv6len (length ip + IPv4len) then None
              else
                match parseIPv4 s with
                | None => None
                | Some f4 => Some (ip ++ f4, ellipsis, EmptyString)
                end
            else
              let ip' := ip ++ [acc / 256; acc mod 256] in
              match rest with
              | EmptyString => Some (ip', ellipsis, EmptyString)
              | String c r1 =>
                  if negb (Ascii.eqb c ":") then None
                  else
                    match r1 with
                    | EmptyString => None
                    | String c2 r2 =>
                        if Ascii.eqb c2 ":" then
                          match ellipsis with
                          | Some _ => None
                          | None =>
                              match r2 with
                              | EmptyString => Some (ip', Some (length ip'), EmptyString)
                              | _ => parseIPv6Loop fuel' r2 ip' (Some (length ip'))
                              end
                          end
                        else parseIPv6Loop fuel' r1 ip' ellipsis
                    end
              end
        end
    end.

Definition zeros (n : nat) : list Z := List.repeat 0 n.

(** [parseIPv6] without a zone (a zone makes [ParseIP] fail). *)
Definition parseIPv6 (s : string) : option (list Z) :=
  let start :=
    match s with
    | String ":" (String ":" s') => (Some 0%nat, s')
    | _ => (None, s)
    end in
  match start with
  | (Some _, EmptyString) => Some (zeros IPv6len)
  | (ellipsis, s0) =>
      match parseIPv6Loop 8 s0 [] ellipsis with
      | None => None
      | Some (ip, ellipsis', rest) =>
          if negb (String.eqb rest EmptyString) then None
          else if Nat.ltb (length ip) IPv6len then
            match ellipsis' with
            | None => None
            | Some e =>
                Some (List.firstn e ip ++ zeros (IPv6len - length ip) ++ List.skipn e ip)
            end
          else
            match ellipsis' with
            | Some _ => None
            | None => Some ip
            end
      end
  end.

Definition v4InV6Prefix : list Z := zeros 10 ++ [255; 255].

(** The first of the bytes [.], [:] and [%] in [s] decides the parser. *)
Fixpoint firstSeparator (s : string) : option ascii :=
  match s with
  | EmptyString => None
  | String c s' =>
      if Ascii.eqb c "." || Ascii.eqb c ":" || Ascii.eqb c "%" then Some c
      else firstSeparator s'
  end.

(** [net.ParseIP]: the 16-byte form of the address, or nothing ([nil]). *)
Definition ParseIP (s : string) : option IP :=
  match firstSeparator s with
  | Some "."%char =>
      match parseIPv4 s with
      | Some f4 => Some (v4InV6Prefix ++ f4)
      | None => None
      end
  | Some ":"%char => if Str.Contains s "%" then None else parseIPv6 s
  | _ => None
  end.

(** [net.IPv4(a, b, c, d)]. *)
Definition IPv4 (a b c d : Z) : IP := v4InV6Prefix ++ [a; b; c; d].

(** [IP.To4]. *)
Definition To4 (ip : IP) : option IP :=
  if Nat.eqb (length ip) IPv4len then Some ip
  else if Nat.eqb (length ip) IPv6len
          && bool_decide (List.firstn 12 ip = v4InV6Prefix)
  then Some (List.skipn 12 ip)
  else None.

Definition maskByte (ones : nat) (k : nat) : Z :=
  let left := (ones - 8 * k)%nat in
  if Nat.leb 8 left then 255
  else Z.land 255 (Z.shiftl 255 (Z.of_nat (8 - left))).

(** [net.CIDRMask(ones, bits)], for [bits] 32 or 128 and [ones <= bits]. *)
Definition CIDRMask (ones bits : nat) : list Z :=
  List.map (maskByte ones) (List.seq 0 (bits / 8)).

Record IPNet : Type := { IP_ : IP; Mask : list Z }.

(** [networkNumberAndMask]. *)
Definition networkNumberAndMask (n : IPNet) : option (IP * list Z) :=
  let ip := match To4 (IP_ n) with Some x => Some x | None =>
              if Nat.eqb (length (IP_ n)) IPv6len then Some (IP_ n) else None end in
  match ip with
  | None => None
  | Some ip =>
      let m := Mask n in
      if Nat.eqb (length m) IPv4len then
        if Nat.eqb (length ip) IPv4len then Some (ip, m) else None
      else if Nat.eqb (length m) IPv6len then
        if Nat.eqb (length ip) IPv4len then Some (ip, List.skipn 12 m) else Some (ip, m)
      else None
  end.

Fixpoint sameMasked (nn m ip : list Z) : bool :=
  match nn, m, ip with
  | a :: nn', k :: m', b :: ip' => (Z.land a k =? Z.land b k) && sameMasked nn' m' ip'
  | _, _, _ => true
  end.

(** [IPNet.Contains]. *)
Definition Contains (n : IPNet) (ip : IP) : bool :=
  match networkNumberAndMask n with
  | None => false
  | Some (nn, m) =>
      let ip := match To4 ip with Some x => x | None => ip end in
      if negb (Nat.eqb (length ip) (length nn)) then false
      else sameMasked nn m ip
  end.

End Net.

(** ** Data model *)

(** The endpoint of external-dns ([sigs.k8s.io/external-dns/endpoint]). A
    [nil] label map reads as the empty map. *)
Module endpoint.

Definition OwnerLabelKey : string := "owner".
Definition ResourceLabelKey : string := "resource".

Record Endpoint : Type := {
  DNSName : string;
  Targets : list string;
  RecordType : string;
  RecordTTL : Z;
  Labels : gmap string string
}.

(** The domain filter: its list of filters and its [Match] method, which
    belongs to external-dns and is taken as given. *)
Record DomainFilter : Type := {
  Filters : list string;
  Match : string -> bool
}.

End endpoint.

(** The records and domains of the MyraSec client library, with the fields
    the provider reads or writes. *)
Module myrasec.

Record Domain : Type := {
  DomainID : Z;
  DomainName : string
}.

Record DNSRecord : Type := {
  ID : Z;
  Name : string;
  Value : string;
  RecordType : string;
  TTL : Z;
  Active : bool;
  Enabled : bool
}.

End myrasec.

#[global] Instance DNSRecord_eq_dec : EqDecision myrasec.DNSRecord.
Proof. solve_decision. Defined.

Module plan.

Record Changes : Type := {
  Create : list endpoint.Endpoint;
  UpdateOld : list endpoint.Endpoint;
  UpdateNew : list endpoint.Endpoint;
  Delete : list endpoint.Endpoint
}.

End plan.

(** The provider. The API client is the state of the backend (see
    [World]); the logger has no effect on the results and is left out. *)
Record MyraSecDNSProvider : Type := {
  domainFilter : endpoint.DomainFilter;
  domainId : string;
  domainName : string;
  dryRun : bool;
  cachedDomains : list myrasec.Domain;
  ttl : Z;
  owner : string;
  disableProtection : bool
}.

Definition CREATE : string := "CREATE".
Definition UPDATE : string := "UPDATE".
Definition DELETE : string := "DELETE".

(** [changeTask]: a DNS record change task; [oldChange] is a pointer that
    is [nil] for the tasks that are no update. *)
Record changeTask : Type := {
  action : string;
  change : endpoint.Endpoint;
  oldChange : option endpoint.Endpoint
}.

(** What the program takes from its surroundings: the value of the
    environment variable [ENV]; the order in which the [n]-th [range]
    statement over a map visits the keys of that map (Go leaves it
    unspecified); and how many queued tasks the workers still take from
    the task channel after the context has been cancelled (the [select]
    of a worker may choose either ready case). *)
Record Runtime : Type := {
  ENV : string;
  rangeOrder : nat -> list string -> list string;
  drainAfterCancel : nat
}.

(** Every [range] over a map visits each key once. *)
Definition RangeOrderOK (rt : Runtime) : Prop :=
  forall (n : nat) (keys : list string), Permutation (rangeOrder rt n keys) keys.

(** ** The backend client *)

(** [MyraSecAPIClient]: the interface of the backend, over the state [B]
    of the backend. The [params] argument of the list methods is always
    [nil] and is left out. *)
Class MyraSecAPIClient (B : Type) : Type := {
  ListDomains : B -> (error + list myrasec.Domain) * B;
  ListDNSRecords : Z -> B -> (error + list myrasec.DNSRecord) * B;
  CreateDNSRecord : myrasec.DNSRecord -> Z -> B -> (error + myrasec.DNSRecord) * B;
  UpdateDNSRecord : myrasec.DNSRecord -> Z -> B -> (error + myrasec.DNSRecord) * B;
  DeleteDNSRecord : myrasec.DNSRecord -> Z -> B -> (error + myrasec.DNSRecord) * B
}.

(** A call that reached the backend. *)
Inductive Call : Type :=
| CallListDomains
| CallListDNSRecords (domainId : Z)
| CallCreateDNSRecord (record : myrasec.DNSRecord) (domainId : Z)
| CallUpdateDNSRecord (record : myrasec.DNSRecord) (domainId : Z)
| CallDeleteDNSRecord (record : myrasec.DNSRecord) (domainId : Z).

(** The create, update and delete calls. *)
Definition isMutation (c : Call) : bool :=
  match c with
  | CallCreateDNSRecord _ _ | CallUpdateDNSRecord _ _ | CallDeleteDNSRecord _ _ => true
  | _ => false
  end.

(** The record a mutation call carries. *)
Definition callRecord (c : Call) : option myrasec.DNSRecord :=
  match c with
  | CallCreateDNSRecord r _ | CallUpdateDNSRecord r _ | CallDeleteDNSRecord r _ => Some r
  | _ => None
  end.

(** The state a run threads: the backend, the calls that reached it so
    far (oldest first), and the number of [range] statements over maps
    executed so far. *)
Record World (B : Type) : Type := {
  client : B;
  calls : list Call;
  ranges : nat
}.
Arguments client {B} _.
Arguments calls {B} _.
Arguments ranges {B} _.

(** A Go function that returns an [error] (or a value and an [error]):
    [inl e] is the error [e], [inr x] the result with a [nil] error. *)
Definition M (B A : Type) : Type := World B -> (error + A) * World B.

#[global] Instance M_ret {B} : MRet (M B) := fun A x w => (inr x, w).

#[global] Instance M_bind {B} : MBind (M B) := fun A C f m w =>
  match m w with
  | (inl e, w') => (inl e, w')
  | (inr a, w') => f a w'
  end.

(** [return err]. *)
Definition fail {B A} (e : error) : M B A := fun w => (inl e, w).

(** [for _, x := range l] over a slice; an error leaves the loop. *)
Fixpoint forEach {B A} (l : list A) (body : A -> M B unit) : M B unit :=
  match l with
  | [] => mret tt
  | x :: l' => body x ;; forEach l' body
  end.

(** ** Safety policy *)

Definition prodEnvs : gset string := {[ "prod"; "production"; "staging" ]}.

(** [isProduction] checks if we're in a production-like environment; an
    unset [ENV] reads as the empty string. *)
Definition isProduction (rt : Runtime) : bool :=
  let env := Str.ToLower (ENV rt) in
  bool_decide (env ∈ prodEnvs).

Definition privateBlocks : list Net.IPNet := [
  {| Net.IP_ := Net.IPv4 10 0 0 0; Net.Mask := Net.CIDRMask 8 32 |};
  {| Net.IP_ := Net.IPv4 172 16 0 0; Net.Mask := Net.CIDRMask 12 32 |};
  {| Net.IP_ := Net.IPv4 192 168 0 0; Net.Mask := Net.CIDRMask 16 32 |};
  {| Net.IP_ := Net.IPv4 169 254 0 0; Net.Mask := Net.CIDRMask 16 32 |};
  {| Net.IP_ := Net.IPv4 127 0 0 0; Net.Mask := Net.CIDRMask 8 32 |};
  {| Net.IP_ := Net.zeros 15 ++ [1]; Net.Mask := Net.CIDRMask 128 128 |}
].

(** [isPrivateIP] is a basic check for IPv4 private ranges or loopback. *)
Definition isPrivateIP (ipStr : string) : bool :=
  match Net.ParseIP ipStr with
  | None => false
  | Some ip => existsb (fun block => Net.Contains block ip) privateBlocks
  end.

(** [isPrivateEndpoint] checks if any target is a private IP for A/AAAA
    records. *)
Definition isPrivateEndpoint (ep : endpoint.Endpoint) : bool :=
  if String.eqb (endpoint.RecordType ep) RecordTypeA
     || String.eqb (endpoint.RecordType ep) RecordTypeAAAA
  then existsb isPrivateIP (endpoint.Targets ep)
  else false.

(** ** Record matcher and ownership index *)

(** [ensureFullDNSName] appends [p.domainName] if the name is missing it. *)
Definition ensureFullDNSName (p : MyraSecDNSProvider) (dnsName : string) : string :=
  if String.eqb (domainName p) EmptyString then dnsName
  else if Str.HasSuffix dnsName (domainName p) then dnsName
  else dnsName +:+ "." +:+ domainName p.

(** [findMatchingRecords] returns all records matching the given name and
    record type. *)
Definition findMatchingRecords (records : list myrasec.DNSRecord)
    (dnsName recordType : string) : list myrasec.DNSRecord :=
  List.filter
    (fun rec =>
       String.eqb (stripTrailingDot (myrasec.Name rec)) (stripTrailingDot dnsName)
       && String.eqb (myrasec.RecordType rec) recordType)
    records.

(** The index of the TXT records, by record name; a later record of the
    same name replaces an earlier one. *)
Definition indexTXT (allRecords : list myrasec.DNSRecord) : gmap string string :=
  fold_left
    (fun (txtRecords : gmap string string) r =>
       if String.eqb (myrasec.RecordType r) RecordTypeTXT
       then <[myrasec.Name r := myrasec.Value r]> txtRecords
       else txtRecords)
    allRecords ∅.

(** The ownership validation of the update and delete paths: the TXT
    record found under the name without its trailing dot is owned. *)
Definition ownedName (p : MyraSecDNSProvider) (txtRecords : gmap string string)
    (ep : endpoint.Endpoint) : bool :=
  match txtRecords !! stripTrailingDot (endpoint.DNSName ep) with
  | None => false
  | Some txtVal => isOwnedByExternalDNS txtVal (owner p)
  end.

(** ** The mutation paths *)

Section Provider.

Context {B : Type} `{!MyraSecAPIClient B}.

(** The methods of the client, with the call recorded. *)
Definition record_call {A} (c : Call) (op : B -> (error + A) * B) : M B A :=
  fun w =>
    let '(r, b') := op (client w) in
    (r, {| client := b'; calls := calls w ++ [c]; ranges := ranges w |}).

Definition apiListDomains : M B (list myrasec.Domain) :=
  record_call CallListDomains ListDomains.
Definition apiListDNSRecords (domainID : Z) : M B (list myrasec.DNSRecord) :=
  record_call (CallListDNSRecords domainID) (ListDNSRecords domainID).
Definition apiCreateDNSRecord (record : myrasec.DNSRecord) (domainID : Z)
  : M B myrasec.DNSRecord :=
  record_call (CallCreateDNSRecord record domainID) (CreateDNSRecord record domainID).
Definition apiUpdateDNSRecord (record : myrasec.DNSRecord) (domainID : Z)
  : M B myrasec.DNSRecord :=
  record_call (CallUpdateDNSRecord record domainID) (UpdateDNSRecord record domainID).
Definition apiDeleteDNSRecord (record : myrasec.DNSRecord) (domainID : Z)
  : M B myrasec.DNSRecord :=
  record_call (CallDeleteDNSRecord record domainID) (DeleteDNSRecord record domainID).

(** The keys of a map in the order the next [range] statement visits
    them. *)
Definition rangeKeys (rt : Runtime) (keys : list string) : M B (list string) :=
  fun w =>
    (inr (rangeOrder rt (ranges w) keys),
     {| client := client w; calls := calls w; ranges := S (ranges w) |}).

(** What [createDNSRecord] makes of an error of the create call. *)
Definition createErrorIgnored (rt : Runtime) (err : error) : bool :=
  if Str.Contains (Error err) "This value is already used" then true
  else if Str.Contains (Error err) "private network range" && isProduction rt then true
  else if Str.Contains (Error err) "private network range" then true
  else false.

(** [createDNSRecord] is the underlying method used by
    [processCreateActions] or [processUpdateActions]. *)
Definition createDNSRecord (p : MyraSecDNSProvider) (rt : Runtime)
    (dnsName recordType value : string) (ttl : Z) : M B unit :=
  let formattedValue := formatRecordValue value recordType in
  let record := {|
    myrasec.ID := 0;
    myrasec.Name := dnsName;
    myrasec.Value := formattedValue;
    myrasec.RecordType := recordType;
    myrasec.TTL := ttl;
    myrasec.Active := negb (disableProtection p);
    myrasec.Enabled := true
  |} in
  match Strconv.Atoi (domainId p) with
  | inl err => fail (wrapError "invalid domain ID: " err)
  | inr domainID =>
      fun w =>
        match apiCreateDNSRecord record domainID w with
        | (inl err, w') =>
            if createErrorIgnored rt err then (inr tt, w') else (inl err, w')
        | (inr _, w') => (inr tt, w')
        end
  end.

(** [deleteDNSRecord] is the underlying method used by
    [processDeleteActions] or [processUpdateActions]. *)
Definition deleteDNSRecord (p : MyraSecDNSProvider) (record : myrasec.DNSRecord)
  : M B unit :=
  match Strconv.Atoi (domainId p) with
  | inl _ => mret tt
  | inr domainID => apiDeleteDNSRecord record domainID ;; mret tt
  end.

Definition endpointTTL (p : MyraSecDNSProvider) (ep : endpoint.Endpoint) : Z :=
  if 0 <? endpoint.RecordTTL ep then endpoint.RecordTTL ep else ttl p.

Definition fullName (p : MyraSecDNSProvider) (ep : endpoint.Endpoint) : string :=
  ensureFullDNSName p (stripTrailingDot (endpoint.DNSName ep)).

(** The value of the TXT record that declares ownership. *)
Definition ownershipValue (p : MyraSecDNSProvider) (labels : gmap string string) : string :=
  let txtVal := "heritage=external-dns,external-dns/owner=" +:+ owner p in
  match labels !! endpoint.ResourceLabelKey with
  | Some resource => txtVal +:+ ",external-dns/resource=" +:+ resource
  | None => txtVal
  end.

(** The body of the loop of [processCreateActions]. (The owner label the
    source writes into the endpoint is visible here in [labels] only.) *)
Definition createEndpoint (p : MyraSecDNSProvider) (rt : Runtime)
    (ep : endpoint.Endpoint) : M B unit :=
  let dnsName := fullName p ep in
  if isProduction rt && isPrivateEndpoint ep then mret tt
  else
    let ttl := endpointTTL p ep in
    let labels := <[endpoint.OwnerLabelKey := owner p]> (endpoint.Labels ep) in
    forEach (endpoint.Targets ep)
      (fun target =>
         let val := formatRecordValue target (endpoint.RecordType ep) in
         createDNSRecord p rt dnsName (endpoint.RecordType ep) val ttl) ;;
    if negb (String.eqb (endpoint.RecordType ep) RecordTypeTXT)
    then createDNSRecord p rt dnsName RecordTypeTXT (ownershipValue p labels) ttl
    else mret tt.

Definition processCreateActions (p : MyraSecDNSProvider) (rt : Runtime)
    (endpoints : list endpoint.Endpoint) : M B unit :=
  forEach endpoints (createEndpoint p rt).

(** The attribute drift of a retained record. *)
Definition drifted (p : MyraSecDNSProvider) (dnsName : string) (ttl : Z)
    (rec : myrasec.DNSRecord) : bool :=
  negb (myrasec.TTL rec =? ttl)
  || negb (Bool.eqb (myrasec.Active rec) (negb (disableProtection p)))
  || negb (String.eqb (myrasec.Name rec) dnsName).

(** The record with its attributes corrected. *)
Definition corrected (p : MyraSecDNSProvider) (dnsName : string) (ttl : Z)
    (rec : myrasec.DNSRecord) : myrasec.DNSRecord :=
  {|
    myrasec.ID := myrasec.ID rec;
    myrasec.Name := dnsName;
    myrasec.Value := myrasec.Value rec;
    myrasec.RecordType := myrasec.RecordType rec;
    myrasec.TTL := ttl;
    myrasec.Active := negb (disableProtection p);
    myrasec.Enabled := myrasec.Enabled rec
  |}.

(** The map [current] of the update path: record by value; a later
    record of the same value replaces an earlier one. Every entry points at
    its own copy of the record (the loop variable [rec] is fresh in every
    iteration), so the map can be taken to hold the records themselves. *)
Definition currentByValue (existingRecords : list myrasec.DNSRecord)
  : gmap string myrasec.DNSRecord :=
  fold_left (fun (current : gmap string myrasec.DNSRecord) rec =>
               <[myrasec.Value rec := rec]> current)
    existingRecords ∅.

(** The set [desired] of the update path. *)
Definition desiredValues (ep : endpoint.Endpoint) : gset string :=
  list_to_set
    (List.map (fun target => formatRecordValue target (endpoint.RecordType ep))
       (endpoint.Targets ep)).

(** Step 1 of the update path, [for val, rec := range current], over the
    keys in the order of the visit; the result is what is left of
    [desired]. *)
Fixpoint reconcileCurrent (p : MyraSecDNSProvider) (dnsName : string) (ttl : Z)
    (current : gmap string myrasec.DNSRecord) (keys : list string)
    (desired : gset string) : M B (gset string) :=
  match keys with
  | [] => mret desired
  | val :: keys' =>
      match current !! val with
      | None => reconcileCurrent p dnsName ttl current keys' desired
      | Some rec =>
          if bool_decide (val ∈ desired) then
            desired' ←
              (if drifted p dnsName ttl rec then
                 match Strconv.Atoi (domainId p) with
                 | inl _ => mret desired
                 | inr domainID =>
                     apiUpdateDNSRecord (corrected p dnsName ttl rec) domainID ;;
                     mret (desired ∖ {[val]})
                 end
               else mret (desired ∖ {[val]}));
            reconcileCurrent p dnsName ttl current keys' desired'
          else
            deleteDNSRecord p rec ;;
            reconcileCurrent p dnsName ttl current keys' desired
      end
  end.

(** The body of the loop of [processUpdateActions]. *)
Definition updateEndpoint (p : MyraSecDNSProvider) (rt : Runtime)
    (allRecords : list myrasec.DNSRecord) (txtRecords : gmap string string)
    (newEp : endpoint.Endpoint) : M B unit :=
  let dnsName := fullName p newEp in
  if isProduction rt && isPrivateEndpoint newEp then mret tt
  else
    let ttl := endpointTTL p newEp in
    if negb (ownedName p txtRecords newEp) then mret tt
    else
      let existingRecords :=
        findMatchingRecords allRecords dnsName (endpoint.RecordType newEp) in
      let current := currentByValue existingRecords in
      let desired := desiredValues newEp in
      keys ← rangeKeys rt (map_to_list current).*1;
      desired' ← reconcileCurrent p dnsName ttl current keys desired;
      vals ← rangeKeys rt (elements desired');
      forEach vals
        (fun val => createDNSRecord p rt dnsName (endpoint.RecordType newEp) val ttl).

Definition processUpdateActions (p : MyraSecDNSProvider) (rt : Runtime)
    (oldEndpoints : list (option endpoint.Endpoint))
    (newEndpoints : list endpoint.Endpoint) : M B unit :=
  if negb (Nat.eqb (length oldEndpoints) (length newEndpoints)) then
    fail (errorString
            ("mismatched endpoint lists: old="
               +:+ Strconv.Itoa (Z.of_nat (length oldEndpoints))
               +:+ ", new=" +:+ Strconv.Itoa (Z.of_nat (length newEndpoints))))
  else
    match Strconv.Atoi (domainId p) with
    | inl err => fail (wrapError "invalid domain ID: " err)
    | inr domainID =>
        fun w =>
          match apiListDNSRecords domainID w with
          | (inl err, w') =>
              (inl (wrapError "failed to list DNS records for update: " err), w')
          | (inr allRecords, w') =>
              forEach newEndpoints
                (updateEndpoint p rt allRecords (indexTXT allRecords)) w'
          end
    end.

(** The set [targetsToDelete] of the delete path. *)
Definition targetsToDelete (ep : endpoint.Endpoint) : gset string := desiredValues ep.

(** The body of the loop of [processDeleteActions]. *)
Definition deleteEndpoint (p : MyraSecDNSProvider) (rt : Runtime)
    (allRecords : list myrasec.DNSRecord) (txtRecords : gmap string string)
    (ep : endpoint.Endpoint) : M B unit :=
  let dnsName := fullName p ep in
  if isProduction rt && isPrivateEndpoint ep then mret tt
  else if negb (ownedName p txtRecords ep) then mret tt
  else
    let matchingRecords :=
      findMatchingRecords allRecords dnsName (endpoint.RecordType ep) in
    if Nat.eqb (length matchingRecords) 0 then mret tt
    else
      forEach matchingRecords
        (fun record =>
           if negb (bool_decide (myrasec.Value record ∈ targetsToDelete ep)) then mret tt
           else deleteDNSRecord p record).

Definition processDeleteActions (p : MyraSecDNSProvider) (rt : Runtime)
    (endpoints : list endpoint.Endpoint) : M B unit :=
  if Nat.eqb (length endpoints) 0 then mret tt
  else
    match Strconv.Atoi (domainId p) with
    | inl err => fail (wrapError "invalid domain ID: " err)
    | inr domainID =>
        fun w =>
          match apiListDNSRecords domainID w with
          | (inl err, w') =>
              (inl (wrapError "failed to list DNS records for deletion: " err), w')
          | (inr allRecords, w') =>
              forEach endpoints
                (deleteEndpoint p rt allRecords (indexTXT allRecords)) w'
          end
    end.

End Provider.

(** ** Domain selection and the task executor *)

Section Executor.

Context {B : Type} `{!MyraSecAPIClient B}.

Definition setCachedDomains (p : MyraSecDNSProvider) (domains : list myrasec.Domain)
  : MyraSecDNSProvider :=
  {| domainFilter := domainFilter p; domainId := domainId p; domainName := domainName p;
     dryRun := dryRun p; cachedDomains := domains; ttl := ttl p; owner := owner p;
     disableProtection := disableProtection p |}.

Definition setDomain (p : MyraSecDNSProvider) (id name : string) : MyraSecDNSProvider :=
  {| domainFilter := domainFilter p; domainId := id; domainName := name;
     dryRun := dryRun p; cachedDomains := cachedDomains p; ttl := ttl p; owner := owner p;
     disableProtection := disableProtection p |}.

(** [GetDomains] retrieves all domains from the API and applies
    filtering if configured; it also caches the domains. The provider is
    returned with its cache. *)
Definition GetDomains (p : MyraSecDNSProvider) (w : World B)
  : (error + list myrasec.Domain) * MyraSecDNSProvider * World B :=
  if Nat.ltb 0 (length (cachedDomains p)) then (inr (cachedDomains p), p, w)
  else
    match apiListDomains w with
    | (inl err, w') => (inl (wrapError "failed to list domains: " err), p, w')
    | (inr domains, w') =>
        if Nat.ltb 0 (length (endpoint.Filters (domainFilter p))) then
          let filteredDomains :=
            List.filter (fun domain => endpoint.Match (domainFilter p) (myrasec.DomainName domain))
              domains in
          if Nat.eqb (length filteredDomains) 0
          then (inr domains, setCachedDomains p domains, w')
          else (inr filteredDomains, setCachedDomains p filteredDomains, w')
        else (inr domains, setCachedDomains p domains, w')
    end.

(** The choice of [SelectDomain] among the domains. *)
Definition chooseDomain (p : MyraSecDNSProvider) (domains : list myrasec.Domain)
  : option myrasec.Domain :=
  match endpoint.Filters (domainFilter p) with
  | filterName :: _ =>
      match List.find (fun domain => String.eqb (myrasec.DomainName domain) filterName) domains with
      | Some domain => Some domain
      | None => List.head domains
      end
  | [] => List.head domains
  end.

(** [SelectDomain] chooses the domain and sets the provider's
    [domainId] and [domainName]. *)
Definition SelectDomain (p : MyraSecDNSProvider) (w : World B)
  : (error + myrasec.Domain) * MyraSecDNSProvider * World B :=
  match GetDomains p w with
  | (inl err, p', w') => (inl err, p', w')
  | (inr domains, p', w') =>
      if Nat.eqb (length domains) 0 then (inl ErrDomainNotFound, p', w')
      else
        match chooseDomain p' domains with
        | None => (inl ErrDomainNotFound, p', w')
        | Some selectedDomain =>
            (inr selectedDomain,
             setDomain p' (Strconv.Itoa (myrasec.DomainID selectedDomain))
               (myrasec.DomainName selectedDomain),
             w')
        end
  end.

(** What a worker does with one task. *)
Definition processTask (p : MyraSecDNSProvider) (rt : Runtime) (task : changeTask)
  : M B unit :=
  if dryRun p then mret tt
  else if String.eqb (action task) CREATE then processCreateActions p rt [change task]
  else if String.eqb (action task) UPDATE then
         processUpdateActions p rt [oldChange task] [change task]
  else if String.eqb (action task) DELETE then processDeleteActions p rt [change task]
  else fail (errorString ("unknown action: " +:+ action task)).

(** The tasks the workers still take after the cancellation; their
    results are not looked at. *)
Fixpoint drainTasks (p : MyraSecDNSProvider) (rt : Runtime) (n : nat)
    (tasks : list changeTask) (w : World B) : World B :=
  match n, tasks with
  | S n', task :: tasks' => drainTasks p rt n' tasks' (snd (processTask p rt task w))
  | _, _ => w
  end.

(** The run of the queue, for the schedule in which the tasks are taken
    from the channel in their order and each one finishes before the next
    is taken (the worker pool run by one worker at a time), under a
    context that the caller does not cancel: the first error is kept and
    cancels the rest. The interleaving of the backend calls of tasks that
    run at the same time is outside this model. *)
Fixpoint runTasks (p : MyraSecDNSProvider) (rt : Runtime) (tasks : list changeTask)
  : M B unit :=
  match tasks with
  | [] => mret tt
  | task :: tasks' =>
      fun w =>
        match processTask p rt task w with
        | (inl firstErr, w') =>
            (inl firstErr, drainTasks p rt (drainAfterCancel rt) tasks' w')
        | (inr _, w') => runTasks p rt tasks' w'
        end
  end.

(** [processTasksWithWorkers]. *)
Definition processTasksWithWorkers (p : MyraSecDNSProvider) (rt : Runtime)
    (tasks : list changeTask) : M B unit :=
  if Nat.eqb (length tasks) 0 then mret tt else runTasks p rt tasks.

(** The task list of [ApplyChangesWithWorkers]. *)
Definition buildTasks (changes : plan.Changes) : list changeTask :=
  List.map (fun ep => {| action := CREATE; change := ep; oldChange := None |})
    (plan.Create changes)
  ++ imap (fun i ep => {| action := UPDATE; change := ep;
                          oldChange := plan.UpdateOld changes !! i |})
       (plan.UpdateNew changes)
  ++ List.map (fun ep => {| action := DELETE; change := ep; oldChange := None |})
       (plan.Delete changes).

(** [ApplyChangesWithWorkers] applies DNS record changes; the result is
    the error (or [nil]), the provider as the call leaves it, and the
    world. *)
Definition ApplyChangesWithWorkers (p : MyraSecDNSProvider) (rt : Runtime)
    (changes : plan.Changes) (w : World B)
  : (error + unit) * MyraSecDNSProvider * World B :=
  if negb (Nat.eqb (length (plan.UpdateOld changes)) (length (plan.UpdateNew changes)))
  then (inl ErrUpdateSlicesMismatch, p, w)
  else if Nat.eqb (length (plan.Create changes)) 0
          && Nat.eqb (length (plan.UpdateNew changes)) 0
          && Nat.eqb (length (plan.Delete changes)) 0
  then (inr tt, p, w)
  else
    match SelectDomain p w with
    | (inl err, p', w') => (inl err, p', w')
    | (inr selectedDomain, p', w') =>
        let p'' := setDomain p' (domainId p') (myrasec.DomainName selectedDomain) in
        let '(r, w'') := processTasksWithWorkers p'' rt (buildTasks changes) w' in
        (r, p'', w'')
    end.

(** [ApplyChanges] applies the given changes to the MyraSec DNS
    records. *)
Definition ApplyChanges (p : MyraSecDNSProvider) (rt : Runtime)
    (changes : plan.Changes) (w : World B)
  : (error + unit) * MyraSecDNSProvider * World B :=
  ApplyChangesWithWorkers p rt changes w.

End Executor.

(** ** Backends for the examples *)

(** A mock client in the manner of the test suite's [MockMyraSecClient]:
    every method returns what the mock was set up with. *)
Record Mock : Type := {
  mockDomains : error + list myrasec.Domain;
  mockRecords : error + list myrasec.DNSRecord;
  mockCreate : myrasec.DNSRecord -> option error;
  mockUpdate : myrasec.DNSRecord -> option error;
  mockDelete : myrasec.DNSRecord -> option error
}.

Definition mockResult (r : myrasec.DNSRecord) (e : option error)
  : error + myrasec.DNSRecord :=
  match e with
  | Some err => inl err
  | None => inr r
  end.

#[global] Instance Mock_client : MyraSecAPIClient Mock := {|
  ListDomains := fun m => (mockDomains m, m);
  ListDNSRecords := fun _ m => (mockRecords m, m);
  CreateDNSRecord := fun r _ m => (mockResult r (mockCreate m r), m);
  UpdateDNSRecord := fun r _ m => (mockResult r (mockUpdate m r), m);
  DeleteDNSRecord := fun r _ m => (mockResult r (mockDelete m r), m)
|}.

(** A reference backend in memory, which stores the records as they are
    sent: a create call is refused with the duplicate condition when a
    record of the same name (up to the trailing dot), type and value is
    there, and otherwise stores the record under a fresh identifier; an
    update call replaces, and a delete call removes, the record of the
    identifier given, and fails when there is none. The domain identifier
    is not looked at. (The real service is outside the repository.) *)
Record MemStore : Type := {
  storeDomains : list myrasec.Domain;
  storeRecords : list myrasec.DNSRecord;
  storeNextID : Z
}.

Definition sameKey (a b : myrasec.DNSRecord) : bool :=
  String.eqb (stripTrailingDot (myrasec.Name a)) (stripTrailingDot (myrasec.Name b))
  && String.eqb (myrasec.RecordType a) (myrasec.RecordType b)
  && String.eqb (myrasec.Value a) (myrasec.Value b).

Definition hasID (id : Z) (r : myrasec.DNSRecord) : bool := myrasec.ID r =? id.

Definition withID (r : myrasec.DNSRecord) (id : Z) : myrasec.DNSRecord :=
  {| myrasec.ID := id; myrasec.Name := myrasec.Name r; myrasec.Value := myrasec.Value r;
     myrasec.RecordType := myrasec.RecordType r; myrasec.TTL := myrasec.TTL r;
     myrasec.Active := myrasec.Active r; myrasec.Enabled := myrasec.Enabled r |}.

Definition setRecords (b : MemStore) (records : list myrasec.DNSRecord) (nextID : Z)
  : MemStore :=
  {| storeDomains := storeDomains b; storeRecords := records; storeNextID := nextID |}.

Definition memCreate (r : myrasec.DNSRecord) (b : MemStore)
  : (error + myrasec.DNSRecord) * MemStore :=
  if existsb (sameKey r) (storeRecords b)
  then (inl (errorString "This value is already used"), b)
  else
    let r' := withID r (storeNextID b) in
    (inr r', setRecords b (storeRecords b ++ [r']) (storeNextID b + 1)).

Definition memUpdate (r : myrasec.DNSRecord) (b : MemStore)
  : (error + myrasec.DNSRecord) * MemStore :=
  if existsb (hasID (myrasec.ID r)) (storeRecords b)
  then (inr r,
        setRecords b
          (List.map (fun x => if hasID (myrasec.ID r) x then r else x) (storeRecords b))
          (storeNextID b))
  else (inl (errorString "record not found"), b).

Definition memDelete (r : myrasec.DNSRecord) (b : MemStore)
  : (error + myrasec.DNSRecord) * MemStore :=
  if existsb (hasID (myrasec.ID r)) (storeRecords b)
  then (inr r,
        setRecords b
          (List.filter (fun x => negb (hasID (myrasec.ID r) x)) (storeRecords b))
          (storeNextID b))
  else (inl (errorString "record not found"), b).

#[global] Instance MemStore_client : MyraSecAPIClient MemStore := {|
  ListDomains := fun b => (inr (storeDomains b), b);
  ListDNSRecords := fun _ b => (inr (storeRecords b), b);
  CreateDNSRecord := fun r _ b => memCreate r b;
  UpdateDNSRecord := fun r _ b => memUpdate r b;
  DeleteDNSRecord := fun r _ b => memDelete r b
|}.

(** The store is in order: the identifiers are distinct and below the
    next identifier, and no two records have the same name (up to the
    trailing dot), type and value. *)
Definition StoreOK (b : MemStore) : Prop :=
  List.NoDup (List.map myrasec.ID (storeRecords b))
  /\ (forall r, In r (storeRecords b) -> myrasec.ID r < storeNextID b)
  /\ (forall r1 r2, In r1 (storeRecords b) -> In r2 (storeRecords b) ->
                    sameKey r1 r2 = true -> r1 = r2).

(** The store of the examples. *)
Definition exampleStore (records : list myrasec.DNSRecord) : MemStore := {|
  storeDomains := [ {| myrasec.DomainID := 123; myrasec.DomainName := "example.com" |} ];
  storeRecords := records;
  storeNextID := 100
|}.

(** The world before any call. *)
Definition start {B} (b : B) : World B := {| client := b; calls := []; ranges := 0 |}.

(** ** Notions used in the statements *)

(** The bytes of [s], each rewritten by [f]. *)
Fixpoint mapBytes (f : ascii -> string) (s : string) : string :=
  match s with
  | EmptyString => EmptyString
  | String c s' => f c +:+ mapBytes f s'
  end.

(** The rewriting of the one byte [old] into [new]. *)
Definition replByte (old : ascii) (new : string) (c : ascii) : string :=
  if Ascii.eqb c old then new else str1 c.

(** The byte [c] occurs in [s]. *)
Fixpoint hasByte (c : ascii) (s : string) : bool :=
  match s with
  | EmptyString => false
  | String d s' => Ascii.eqb d c || hasByte c s'
  end.

(** The cutset of [formatTXTValue]: both quote characters. *)
Definition quotes : string := String dquote (str1 squote).

(** Two names are the same up to the trailing dot. *)
Definition sameName (a b : string) : Prop := stripTrailingDot a = stripTrailingDot b.

(** The value of the record a mutation call carries. *)
Definition callValue (c : Call) : option string := myrasec.Value <$> callRecord c.

(** The name of the record a mutation call carries. *)
Definition callName (c : Call) : option string := myrasec.Name <$> callRecord c.

(** The endpoint is suppressed by the safety policy. *)
Definition blocked (rt : Runtime) (ep : endpoint.Endpoint) : bool :=
  isProduction rt && isPrivateEndpoint ep.

Section Statements.

Context {B : Type} `{!MyraSecAPIClient B}.

(** The calls a computation adds to the trace, when started in [w]. *)
Definition issued {A} (m : M B A) (w : World B) : list Call :=
  List.skipn (length (calls w)) (calls (snd (m w))).

(** The computation adds only calls that satisfy [P], and a result
    satisfies [Q]. *)
Definition emits {A} (m : M B A) (P : Call -> Prop) (Q : A -> Prop) : Prop :=
  forall w, exists cs,
    calls (snd (m w)) = calls w ++ cs /\ Forall P cs
    /\ forall a, fst (m w) = inr a -> Q a.

(** The snapshot the update and delete paths fetch when started in [w],
    empty when the fetch fails. *)
Definition snapshot (p : MyraSecDNSProvider) (w : World B) : list myrasec.DNSRecord :=
  match Strconv.Atoi (domainId p) with
  | inl _ => []
  | inr domainID =>
      match fst (ListDNSRecords domainID (client w)) with
      | inl _ => []
      | inr allRecords => allRecords
      end
  end.

(** The record the update path retains for [value] at the endpoint. *)
Definition retained (p : MyraSecDNSProvider) (allRecords : list myrasec.DNSRecord)
    (ep : endpoint.Endpoint) (value : string) : option myrasec.DNSRecord :=
  currentByValue (findMatchingRecords allRecords (fullName p ep) (endpoint.RecordType ep))
    !! value.

(** The record [createDNSRecord] sends for an already formatted value. *)
Definition newRecord (p : MyraSecDNSProvider) (dnsName recordType value : string) (ttl : Z)
  : myrasec.DNSRecord :=
  {| myrasec.ID := 0; myrasec.Name := dnsName; myrasec.Value := value;
     myrasec.RecordType := recordType; myrasec.TTL := ttl;
     myrasec.Active := negb (disableProtection p); myrasec.Enabled := true |}.

(** What step 1 of the update path may send while it visits [keys] with
    [desired] still to be satisfied: the corrected record of a drifted
    retained value, or the deletion of a record whose value is not
    desired. *)
Definition reconcileCall (p : MyraSecDNSProvider) (dnsName : string) (ttl : Z)
    (current : gmap string myrasec.DNSRecord) (keys : list string)
    (desired : gset string) (domainID : Z) (c : Call) : Prop :=
  match c with
  | CallUpdateDNSRecord r i =>
      i = domainID /\ exists v rec,
        In v keys /\ current !! v = Some rec /\ v ∈ desired
        /\ drifted p dnsName ttl rec = true /\ r = corrected p dnsName ttl rec
  | CallDeleteDNSRecord r i =>
      i = domainID /\ exists v, In v keys /\ current !! v = Some r /\ v ∉ desired
  | _ => False
  end.

(** What the update path may send for an endpoint: the creation of a
    desired value that no current record has, the corrected record of a
    drifted retained value, or the deletion of a retained record whose
    value is not desired. *)
Definition updateCall (p : MyraSecDNSProvider) (allRecords : list myrasec.DNSRecord)
    (ep : endpoint.Endpoint) (domainID : Z) (c : Call) : Prop :=
  let dnsName := fullName p ep in
  let ttl := endpointTTL p ep in
  match c with
  | CallCreateDNSRecord r i =>
      i = domainID /\ exists v,
        v ∈ desiredValues ep /\ retained p allRecords ep v = None
        /\ r = newRecord p dnsName (endpoint.RecordType ep) v ttl
  | CallUpdateDNSRecord r i =>
      i = domainID /\ exists v rec,
        retained p allRecords ep v = Some rec /\ v ∈ desiredValues ep
        /\ drifted p dnsName ttl rec = true /\ r = corrected p dnsName ttl rec
  | CallDeleteDNSRecord r i =>
      i = domainID /\ exists v,
        retained p allRecords ep v = Some r /\ v ∉ desiredValues ep
  | _ => False
  end.

End Statements.


(** ** Data of the examples *)

Definition exampleProvider : MyraSecDNSProvider := {|
  domainFilter := {| endpoint.Filters := []; endpoint.Match := fun _ => true |};
  domainId := "123";
  domainName := "example.com";
  dryRun := false;
  cachedDomains := [];
  ttl := 300;
  owner := "test-owner";
  disableProtection := false
|}.

(** A development runtime and a production runtime; both visit the keys
    of a map in the order given. *)
Definition devRuntime : Runtime :=
  {| ENV := EmptyString; rangeOrder := fun _ keys => keys; drainAfterCancel := 0 |}.

Definition prodRuntime : Runtime :=
  {| ENV := "prod"; rangeOrder := fun _ keys => keys; drainAfterCancel := 0 |}.

Definition mkEndpoint (name recordType : string) (targets : list string) : endpoint.Endpoint :=
  {| endpoint.DNSName := name; endpoint.Targets := targets;
     endpoint.RecordType := recordType; endpoint.RecordTTL := 0; endpoint.Labels := ∅ |}.

Definition mkRecord (id : Z) (name recordType value : string) (ttl : Z) : myrasec.DNSRecord :=
  {| myrasec.ID := id; myrasec.Name := name; myrasec.Value := value;
     myrasec.RecordType := recordType; myrasec.TTL := ttl;
     myrasec.Active := true; myrasec.Enabled := true |}.

(** A mock whose calls all succeed, over the given records. *)
Definition mockOver (records : list myrasec.DNSRecord) : Mock := {|
  mockDomains := inr [ {| myrasec.DomainID := 123; myrasec.DomainName := "example.com" |} ];
  mockRecords := inr records;
  mockCreate := fun _ => None;
  mockUpdate := fun _ => None;
  mockDelete := fun _ => None
|}.

(** A mock whose create call reports a duplicate. *)
Definition mockDuplicate : Mock := {|
  mockDomains := inr [ {| myrasec.DomainID := 123; myrasec.DomainName := "example.com" |} ];
  mockRecords := inr [];
  mockCreate := fun _ => Some (errorString "This value is already used");
  mockUpdate := fun _ => None;
  mockDelete := fun _ => None
|}.

Definition ownerToken : string := "heritage=external-dns,external-dns/owner=test-owner".

(** The batch of the test suite: two old endpoints, one new endpoint. *)
Definition unequalChanges : plan.Changes := {|
  plan.Create := [];
  plan.UpdateOld := [mkEndpoint "update1.example.com" "A" ["192.168.1.1"];
                     mkEndpoint "update2.example.com" "A" ["192.168.1.2"]];
  plan.UpdateNew := [mkEndpoint "update1.example.com" "A" ["192.168.1.3"]];
  plan.Delete := []
|}.

(** A batch with one creation. *)
Definition createChanges : plan.Changes := {|
  plan.Create := [mkEndpoint "a.example.com" "A" ["1.1.1.1"]];
  plan.UpdateOld := [];
  plan.UpdateNew := [];
  plan.Delete := []
|}.


(** ** Notions of the round trip *)

(** The record matches the name and the type ([findMatchingRecords]
    keeps these). *)
Definition inGroup (dnsName recordType : string) (rec : myrasec.DNSRecord) : bool :=
  String.eqb (stripTrailingDot (myrasec.Name rec)) (stripTrailingDot dnsName)
  && String.eqb (myrasec.RecordType rec) recordType.

(** What step 1 of the update of [ep] has made of a record of the
    snapshot once the values [visited] are dealt with: a matching record
    with a visited value is corrected if the value is desired and gone if
    not; the other records are as they were. *)
Definition settled (p : MyraSecDNSProvider) (ep : endpoint.Endpoint) (visited : gset string)
    (r : myrasec.DNSRecord) : option myrasec.DNSRecord :=
  if inGroup (fullName p ep) (endpoint.RecordType ep) r
     && bool_decide (myrasec.Value r ∈ visited)
  then
    if bool_decide (myrasec.Value r ∈ desiredValues ep)
    then Some (corrected p (fullName p ep) (endpointTTL p ep) r)
    else None
  else Some r.

(** The records hold the desired state of [ep]: every matching record has
    a desired value and no drift, and every desired value has a matching
    record. *)
Definition Converged (p : MyraSecDNSProvider) (ep : endpoint.Endpoint)
    (records : list myrasec.DNSRecord) : Prop :=
  (forall r, In r records -> inGroup (fullName p ep) (endpoint.RecordType ep) r = true ->
     myrasec.Value r ∈ desiredValues ep
     /\ drifted p (fullName p ep) (endpointTTL p ep) r = false)
  /\ (forall v, v ∈ desiredValues ep ->
        exists r, In r records
                  /\ inGroup (fullName p ep) (endpoint.RecordType ep) r = true
                  /\ myrasec.Value r = v).

(** The same for the values in [have] only, the matching records having
    no other value. *)
Definition ConvergedOn (p : MyraSecDNSProvider) (ep : endpoint.Endpoint)
    (have : gset string) (records : list myrasec.DNSRecord) : Prop :=
  (forall r, In r records -> inGroup (fullName p ep) (endpoint.RecordType ep) r = true ->
     myrasec.Value r ∈ desiredValues ep
     /\ drifted p (fullName p ep) (endpointTTL p ep) r = false
     /\ myrasec.Value r ∈ have)
  /\ (forall v, v ∈ desiredValues ep -> v ∈ have ->
        exists r, In r records
                  /\ inGroup (fullName p ep) (endpoint.RecordType ep) r = true
                  /\ myrasec.Value r = v).

(** A mock whose update call fails. *)
Definition mockFailingUpdate (records : list myrasec.DNSRecord) : Mock := {|
  mockDomains := inr [ {| myrasec.DomainID := 123; myrasec.DomainName := "example.com" |} ];
  mockRecords := inr records;
  mockCreate := fun _ => None;
  mockUpdate := fun _ => Some (errorString "backend unavailable");
  mockDelete := fun _ => None
|}.

(** A batch with one update and one deletion. *)
Definition updateDeleteChanges : plan.Changes := {|
  plan.Create := [];
  plan.UpdateOld := [mkEndpoint "a.example.com" "A" ["1.1.1.1"]];
  plan.UpdateNew := [mkEndpoint "a.example.com" "A" ["1.1.1.1"]];
  plan.Delete := [mkEndpoint "b.example.com" "A" ["4.4.4.4"]]
|}.

(** The records of the executor examples: a drifted record under [a] and
    a record under [b], both owned. *)
Definition twoNames : list myrasec.DNSRecord :=
  [mkRecord 1 "a.example.com" "TXT" ownerToken 300;
   mkRecord 2 "a.example.com" "A" "1.1.1.1" 60;
   mkRecord 3 "b.example.com" "TXT" ownerToken 300;
   mkRecord 4 "b.example.com" "A" "4.4.4.4" 300].

(** * Properties *)

(** ** The value formatter *)

Module FormatFacts.

#[local] Arguments String.append : simpl nomatch.

Lemma append_empty_r (s : string) : s +:+ EmptyString = s.
Proof. induction s as [|c s IH]; simpl; [reflexivity | now rewrite IH]. Qed.

Lemma append_assoc (a b c : string) : (a +:+ b) +:+ c = a +:+ (b +:+ c).
Proof. induction a as [|x a IH]; simpl; [reflexivity | now rewrite IH]. Qed.

Lemma HasPrefix_empty (s : string) : Str.HasPrefix s EmptyString = true.
Proof. now destruct s. Qed.

(** Replacing a one-byte pattern rewrites byte by byte. *)
Lemma ReplaceAll_byte (s new : string) (old : ascii) :
  Str.ReplaceAll s (str1 old) new = mapBytes (replByte old new) s.
Proof.
  unfold Str.ReplaceAll, str1.
  induction s as [|c s IH]; simpl; [reflexivity |].
  unfold replByte. rewrite (Ascii.eqb_sym old c).
  destruct (Ascii.eqb c old); simpl.
  - now rewrite HasPrefix_empty, IH.
  - now rewrite IH.
Qed.

Lemma hasByte_append (c : ascii) (a b : string) :
  hasByte c (a +:+ b) = hasByte c a || hasByte c b.
Proof.
  induction a as [|x a IH]; simpl; [reflexivity |].
  rewrite IH. now rewrite orb_assoc.
Qed.

(** After the replacement of [old], [old] is gone. *)
Lemma hasByte_replaced (old : ascii) (new s : string) :
  hasByte old new = false -> hasByte old (mapBytes (replByte old new) s) = false.
Proof.
  intros Hnew. induction s as [|c s IH]; simpl; [reflexivity |].
  rewrite hasByte_append, IH, orb_false_r.
  unfold replByte. destruct (Ascii.eqb c old) eqn:E; [exact Hnew |].
  simpl. now rewrite E.
Qed.

(** A replacement brings in no byte that neither the string nor the
    replacement text has. *)
Lemma hasByte_kept (d old : ascii) (new s : string) :
  hasByte d new = false -> hasByte d s = false ->
  hasByte d (mapBytes (replByte old new) s) = false.
Proof.
  intros Hnew. induction s as [|c s IH]; simpl; [reflexivity |].
  intros H. apply orb_false_iff in H as [Hc Hs].
  rewrite hasByte_append, (IH Hs), orb_false_r.
  unfold replByte. destruct (Ascii.eqb c old); [exact Hnew |].
  simpl. now rewrite Hc.
Qed.

(** Without the byte, the replacement changes nothing. *)
Lemma replace_absent (old : ascii) (new s : string) :
  hasByte old s = false -> mapBytes (replByte old new) s = s.
Proof.
  induction s as [|c s IH]; simpl; [reflexivity |].
  intros H. apply orb_false_iff in H as [Hc Hs].
  rewrite (IH Hs). unfold replByte. now rewrite Hc.
Qed.

Lemma TrimLeft_length (s cut : string) :
  (String.length (Str.TrimLeft s cut) <= String.length s)%nat.
Proof.
  induction s as [|c s IH]; simpl; [lia |].
  destruct (Str.inCutset c cut); simpl; lia.
Qed.

(** A string that [TrimLeft] keeps starts outside the cutset. *)
Lemma TrimLeft_fixed_head (c : ascii) (s cut : string) :
  Str.TrimLeft (String c s) cut = String c s -> Str.inCutset c cut = false.
Proof.
  simpl. destruct (Str.inCutset c cut); [|reflexivity].
  intros H. pose proof (TrimLeft_length s cut) as L.
  rewrite H in L. simpl in L. lia.
Qed.

(** The cases of a string that [TrimRight] keeps. *)
Lemma TrimRight_fixed_cons (c : ascii) (s cut : string) :
  Str.TrimRight (String c s) cut = String c s ->
  (s = EmptyString /\ Str.inCutset c cut = false)
  \/ (s <> EmptyString /\ Str.TrimRight s cut = s).
Proof.
  simpl. destruct (Str.TrimRight s cut) as [|d r] eqn:E.
  - destruct (Str.inCutset c cut); [discriminate |].
    intros H. injection H as H. left. now subst s.
  - intros H. injection H as H. right. split; [|exact H].
    rewrite <- H. discriminate.
Qed.

Lemma TrimRight_append (a m cut : string) :
  Str.TrimRight m cut = m -> m <> EmptyString ->
  Str.TrimRight (a +:+ m) cut = a +:+ m.
Proof.
  intros Hm Hne. induction a as [|c a IH]; simpl; [exact Hm |].
  rewrite IH. destruct (a +:+ m) eqn:E; [|reflexivity].
  destruct a; simpl in E; [contradiction | discriminate].
Qed.

Lemma TrimLeft_idem (s cut : string) :
  Str.TrimLeft (Str.TrimLeft s cut) cut = Str.TrimLeft s cut.
Proof.
  induction s as [|c s IH]; simpl; [reflexivity |].
  destruct (Str.inCutset c cut) eqn:E; [exact IH |].
  simpl. now rewrite E.
Qed.

Lemma TrimRight_idem (s cut : string) :
  Str.TrimRight (Str.TrimRight s cut) cut = Str.TrimRight s cut.
Proof.
  induction s as [|c s IH]; simpl; [reflexivity |].
  destruct (Str.TrimRight s cut) as [|d r] eqn:E.
  - destruct (Str.inCutset c cut) eqn:Ec; simpl; [reflexivity | now rewrite Ec].
  - change (Str.TrimRight (String c (String d r)) cut = String c (String d r)).
    change (String c (String d r)) with (str1 c +:+ String d r).
    apply TrimRight_append; [exact IH | discriminate].
Qed.

(** Trimming the left end keeps the right end trimmed. *)
Lemma TrimRight_TrimLeft (s cut : string) :
  Str.TrimRight s cut = s ->
  Str.TrimRight (Str.TrimLeft s cut) cut = Str.TrimLeft s cut.
Proof.
  induction s as [|c s IH]; [reflexivity |].
  intros H. simpl Str.TrimLeft.
  destruct (Str.inCutset c cut) eqn:E; [|exact H].
  destruct (TrimRight_fixed_cons _ _ _ H) as [[-> Hc] | [_ Hs]].
  - reflexivity.
  - now apply IH.
Qed.

(** [Trim] leaves a string that neither end trims further. *)
Lemma Trim_fixed (s cut : string) :
  Str.TrimLeft (Str.Trim s cut) cut = Str.Trim s cut
  /\ Str.TrimRight (Str.Trim s cut) cut = Str.Trim s cut.
Proof.
  unfold Str.Trim. split.
  - apply TrimLeft_idem.
  - apply TrimRight_TrimLeft, TrimRight_idem.
Qed.

Section Bytewise.

Variable cut : string.
Variable f : ascii -> string.

(** [f] rewrites a byte outside the cutset into a text that is not
    empty and has no byte of the cutset at either end. *)
Hypothesis f_left : forall c x,
  Str.inCutset c cut = false -> Str.TrimLeft (f c +:+ x) cut = f c +:+ x.
Hypothesis f_right : forall c,
  Str.inCutset c cut = false -> Str.TrimRight (f c) cut = f c /\ f c <> EmptyString.

Lemma mapBytes_TrimLeft (s : string) :
  Str.TrimLeft s cut = s -> Str.TrimLeft (mapBytes f s) cut = mapBytes f s.
Proof.
  destruct s as [|c s]; [reflexivity |].
  intros H. cbn [mapBytes]. apply f_left.
  now apply TrimLeft_fixed_head with (s := s).
Qed.

Lemma mapBytes_nonempty (s : string) :
  Str.TrimRight s cut = s -> s <> EmptyString -> mapBytes f s <> EmptyString.
Proof.
  induction s as [|c s IH]; [congruence |].
  intros H _. cbn [mapBytes].
  destruct (TrimRight_fixed_cons _ _ _ H) as [[-> Hc] | [Hne Hs]].
  - cbn [mapBytes]. rewrite append_empty_r. now apply f_right.
  - specialize (IH Hs Hne). destruct (f c); simpl; [exact IH | discriminate].
Qed.

Lemma mapBytes_TrimRight (s : string) :
  Str.TrimRight s cut = s -> Str.TrimRight (mapBytes f s) cut = mapBytes f s.
Proof.
  induction s as [|c s IH]; [reflexivity |].
  intros H. cbn [mapBytes].
  destruct (TrimRight_fixed_cons _ _ _ H) as [[-> Hc] | [Hne Hs]].
  - cbn [mapBytes]. rewrite append_empty_r. now apply f_right.
  - apply TrimRight_append; [now apply IH | now apply mapBytes_nonempty].
Qed.

End Bytewise.

Lemma inCutset_quotes (c : ascii) :
  Str.inCutset c quotes = false ->
  Ascii.eqb c dquote = false /\ Ascii.eqb c squote = false.
Proof.
  unfold quotes, str1. simpl. rewrite orb_false_r.
  intros H. now apply orb_false_iff in H.
Qed.

(** The replacements of [formatTXTValue] keep both ends free of
    quotes: the removed byte is a quote, the inserted text a space. *)
Lemma replByte_ends (old : ascii) (new : string) :
  (old = dquote /\ new = EmptyString) \/ new = " " ->
  forall s, Str.TrimLeft s quotes = s -> Str.TrimRight s quotes = s ->
    Str.TrimLeft (mapBytes (replByte old new) s) quotes = mapBytes (replByte old new) s
    /\ Str.TrimRight (mapBytes (replByte old new) s) quotes = mapBytes (replByte old new) s.
Proof.
  intros Hcase s HL HR.
  assert (Hout : forall c, Str.inCutset c quotes = false ->
            replByte old new c = str1 c \/ replByte old new c = " ").
  { intros c Hc. unfold replByte. destruct (Ascii.eqb c old) eqn:E; [|now left].
    apply Ascii.eqb_eq in E. subst c.
    destruct Hcase as [[-> _] | ->]; [|now right].
    apply inCutset_quotes in Hc as [Hc _]. now rewrite Ascii.eqb_refl in Hc. }
  split.
  - apply mapBytes_TrimLeft; [|exact HL].
    intros c x Hc. destruct (Hout c Hc) as [-> | ->]; simpl.
    + apply inCutset_quotes in Hc as [H1 H2]. now rewrite H1, H2.
    + reflexivity.
  - apply mapBytes_TrimRight; [|exact HR].
    intros c Hc. destruct (Hout c Hc) as [-> | ->]; simpl.
    + apply inCutset_quotes in Hc as [H1 H2]. rewrite H1, H2.
      split; [reflexivity | discriminate].
    + split; [reflexivity | discriminate].
Qed.

(** What [formatTXTValue] returns: no quote at either end, and none of
    the four bytes it rewrites. *)
Lemma formatTXTValue_clean (value : string) :
  let v := formatTXTValue value in
  Str.Trim v quotes = v
  /\ hasByte dquote v = false /\ hasByte newline v = false
  /\ hasByte creturn v = false /\ hasByte tab v = false.
Proof.
  unfold formatTXTValue. cbv zeta.
  rewrite !ReplaceAll_byte.
  change (String dquote (str1 squote)) with quotes.
  destruct (Trim_fixed value quotes) as [L0 R0].
  set (v0 := Str.Trim value quotes) in *.
  destruct (replByte_ends dquote EmptyString (or_introl (conj eq_refl eq_refl)) v0 L0 R0)
    as [L1 R1].
  set (v1 := mapBytes (replByte dquote EmptyString) v0) in *.
  destruct (replByte_ends newline " " (or_intror eq_refl) v1 L1 R1) as [L2 R2].
  set (v2 := mapBytes (replByte newline " ") v1) in *.
  destruct (replByte_ends creturn " " (or_intror eq_refl) v2 L2 R2) as [L3 R3].
  set (v3 := mapBytes (replByte creturn " ") v2) in *.
  destruct (replByte_ends tab " " (or_intror eq_refl) v3 L3 R3) as [L4 R4].
  assert (Q1 : hasByte dquote v1 = false) by (now apply hasByte_replaced).
  assert (N2 : hasByte newline v2 = false) by (now apply hasByte_replaced).
  assert (C3 : hasByte creturn v3 = false) by (now apply hasByte_replaced).
  repeat split.
  - unfold Str.Trim. now rewrite R4, L4.
  - do 3 (apply hasByte_kept; [reflexivity |]). exact Q1.
  - do 2 (apply hasByte_kept; [reflexivity |]). exact N2.
  - apply hasByte_kept; [reflexivity |]. exact C3.
  - now apply hasByte_replaced.
Qed.

(** On a value that is clean in that sense the formatter is the
    identity. *)
Lemma formatTXTValue_fixed (v : string) :
  Str.Trim v quotes = v ->
  hasByte dquote v = false -> hasByte newline v = false ->
  hasByte creturn v = false -> hasByte tab v = false ->
  formatTXTValue v = v.
Proof.
  intros HT HQ HN HC HB. unfold formatTXTValue. cbv zeta.
  rewrite !ReplaceAll_byte.
  change (String dquote (str1 squote)) with quotes.
  rewrite HT.
  rewrite (replace_absent dquote _ v HQ).
  rewrite (replace_absent newline _ v HN).
  rewrite (replace_absent creturn _ v HC).
  now rewrite (replace_absent tab _ v HB).
Qed.

End FormatFacts.

(** Formatting a formatted value changes nothing; shared by the claims on
    the formatter and on the update path. *)
Lemma formatRecordValue_idem (value recordType : string) :
  formatRecordValue (formatRecordValue value recordType) recordType
  = formatRecordValue value recordType.
Proof.
  unfold formatRecordValue.
  destruct (String.eqb recordType RecordTypeTXT); [|reflexivity].
  destruct (FormatFacts.formatTXTValue_clean value) as (HT & HQ & HN & HC & HB).
  now apply FormatFacts.formatTXTValue_fixed.
Qed.

(** C10. The text-record value formatter is idempotent: for every string,
    applying [formatTXTValue] twice gives what applying it once gives. Its
    result holds no double quote, newline, carriage return or tab, and a
    further trim of the surrounding quote characters removes nothing. The
    same holds of [formatRecordValue] at every record type. *)
Theorem C10_formatTXTValue_idempotent (value : string) :
  formatTXTValue (formatTXTValue value) = formatTXTValue value
  /\ hasByte dquote (formatTXTValue value) = false
  /\ hasByte newline (formatTXTValue value) = false
  /\ hasByte creturn (formatTXTValue value) = false
  /\ hasByte tab (formatTXTValue value) = false
  /\ Str.Trim (formatTXTValue value) quotes = formatTXTValue value
  /\ (forall recordType,
        formatRecordValue (formatRecordValue value recordType) recordType
        = formatRecordValue value recordType).
Proof.
  destruct (FormatFacts.formatTXTValue_clean value) as (HT & HQ & HN & HC & HB).
  repeat split; try assumption.
  - now apply FormatFacts.formatTXTValue_fixed.
  - intros recordType. apply formatRecordValue_idem.
Qed.
Example formatTXTValue_ex1 :
  formatTXTValue (String dquote ("heritage=external-dns" +:+ str1 dquote)) = "heritage=external-dns".
Proof. reflexivity. Qed.
Example stripTrailingDot_ex1 : stripTrailingDot "x.example.com." = "x.example.com".
Proof. reflexivity. Qed.
Example isOwned_ex1 :
  isOwnedByExternalDNS "heritage=external-dns,external-dns/owner=me" "me" = true.
Proof. reflexivity. Qed.
Example Atoi_ex1 : Strconv.Atoi "123" = inr 123.
Proof. reflexivity. Qed.
Example Atoi_ex2 : Strconv.Atoi "-7" = inr (-7).
Proof. reflexivity. Qed.
Example Atoi_ex3 : Strconv.Atoi "12a" = inl (NumError "Atoi" "12a" ErrSyntax).
Proof. reflexivity. Qed.
Example Atoi_ex4 : Strconv.Atoi EmptyString = inl (NumError "Atoi" EmptyString ErrSyntax).
Proof. reflexivity. Qed.
Example Itoa_ex1 : Strconv.Itoa 1203 = "1203" /\ Strconv.Itoa 0 = "0" /\ Strconv.Itoa (-45) = "-45".
Proof. repeat split; reflexivity. Qed.
Example ToLower_ex1 : Str.ToLower "ProD" = "prod".
Proof. reflexivity. Qed.
Example ParseIP_ex1 : Net.ParseIP "10.0.0.1" = Some (Net.IPv4 10 0 0 1).
Proof. reflexivity. Qed.
Example ParseIP_ex2 : Net.ParseIP "010.0.0.1" = None /\ Net.ParseIP "1.2.3" = None
  /\ Net.ParseIP "1.2.3.4.5" = None /\ Net.ParseIP "256.1.1.1" = None /\ Net.ParseIP "1..2.3" = None
  /\ Net.ParseIP "example.com" = None /\ Net.ParseIP "1.2.3.4." = None.
Proof. repeat split; reflexivity. Qed.
Example ParseIP_ex3 : Net.ParseIP "::1" = Some (Net.zeros 15 ++ [1]).
Proof. reflexivity. Qed.
Example ParseIP_ex4 : Net.ParseIP "::ffff:10.0.0.1" = Some (Net.IPv4 10 0 0 1).
Proof. reflexivity. Qed.
Example ParseIP_ex5 :
  Net.ParseIP "2001:db8::1" = Some [32; 1; 13; 184; 0; 0; 0; 0; 0; 0; 0; 0; 0; 0; 0; 1].
Proof. reflexivity. Qed.
Example ParseIP_ex6 : Net.ParseIP "1:2:3:4:5:6:7:8" = Some [0;1;0;2;0;3;0;4;0;5;0;6;0;7;0;8]
  /\ Net.ParseIP "1:2:3:4:5:6:7::" = Some [0;1;0;2;0;3;0;4;0;5;0;6;0;7;0;0]
  /\ Net.ParseIP "1:2:3:4:5:6:7:8::" = None /\ Net.ParseIP "::" = Some (Net.zeros 16)
  /\ Net.ParseIP "fe80::1%eth0" = None /\ Net.ParseIP "1::2::3" = None
  /\ Net.ParseIP "12345::" = None /\ Net.ParseIP ":1" = None.
Proof. repeat split; reflexivity. Qed.
Example CIDRMask_ex1 : Net.CIDRMask 12 32 = [255; 240; 0; 0] /\ Net.CIDRMask 8 32 = [255; 0; 0; 0].
Proof. split; reflexivity. Qed.

(** ** Reasoning about runs *)

Section Runs.

Context {B : Type} `{!MyraSecAPIClient B}.

Lemma bind_run {A C} (m : M B A) (k : A -> M B C) (w : World B) :
  (m ≫= k) w = match m w with
               | (inl e, w') => (inl e, w')
               | (inr a, w') => k a w'
               end.
Proof. reflexivity. Qed.

Lemma issued_emits {A} (m : M B A) (P : Call -> Prop) (Q : A -> Prop) (w : World B) :
  emits m P Q -> calls (snd (m w)) = calls w ++ issued m w /\ Forall P (issued m w).
Proof.
  intros H. destruct (H w) as (cs & E & HP & _).
  unfold issued. rewrite E, drop_app_length. now split.
Qed.

Lemma emits_ret {A} (x : A) (P : Call -> Prop) (Q : A -> Prop) :
  Q x -> emits (mret x : M B A) P Q.
Proof.
  intros HQ w. exists []. cbn. rewrite app_nil_r. repeat split; [constructor |].
  intros a [= <-]. exact HQ.
Qed.

Lemma emits_fail {A} (e : error) (P : Call -> Prop) (Q : A -> Prop) :
  emits (fail e : M B A) P Q.
Proof.
  intros w. exists []. cbn. rewrite app_nil_r. repeat split; [constructor |].
  intros a [=].
Qed.

Lemma emits_bind {A C} (m : M B A) (k : A -> M B C) (P : Call -> Prop)
    (Q1 : A -> Prop) (Q2 : C -> Prop) :
  emits m P Q1 -> (forall a, Q1 a -> emits (k a) P Q2) -> emits (m ≫= k) P Q2.
Proof.
  intros Hm Hk w. rewrite bind_run.
  destruct (Hm w) as (cs1 & E1 & HP1 & HQ1).
  destruct (m w) as [[e | a] w1]; cbn in *.
  - exists cs1. repeat split; [exact E1 | exact HP1 | intros c [=]].
  - destruct (Hk a (HQ1 a eq_refl) w1) as (cs2 & E2 & HP2 & HQ2).
    exists (cs1 ++ cs2). repeat split.
    + rewrite E2, E1. now rewrite app_assoc.
    + now apply Forall_app.
    + exact HQ2.
Qed.

Lemma emits_conseq {A} (m : M B A) (P P' : Call -> Prop) (Q Q' : A -> Prop) :
  emits m P Q -> (forall c, P c -> P' c) -> (forall a, Q a -> Q' a) -> emits m P' Q'.
Proof.
  intros Hm HP HQ w. destruct (Hm w) as (cs & E & HPs & HQs).
  exists cs. repeat split; [exact E | | auto].
  eapply Forall_impl; [exact HPs | exact HP].
Qed.

Lemma emits_call {A} (c : Call) (op : B -> (error + A) * B) (P : Call -> Prop)
    (Q : A -> Prop) :
  P c -> (forall b a, fst (op b) = inr a -> Q a) -> emits (record_call c op) P Q.
Proof.
  intros HP HQ w. exists [c]. unfold record_call.
  destruct (op (client w)) as [r b'] eqn:E. cbn.
  repeat split; [now constructor |].
  intros a ->. apply (HQ (client w)). now rewrite E.
Qed.

Lemma emits_forEach {A} (l : list A) (body : A -> M B unit) (P : Call -> Prop) :
  (forall x, In x l -> emits (body x) P (fun _ => True)) ->
  emits (forEach l body) P (fun _ => True).
Proof.
  induction l as [|x l IH]; intros Hb; cbn [forEach].
  - now apply emits_ret.
  - apply emits_bind with (Q1 := fun _ => True).
    + apply Hb. now left.
    + intros _ _. apply IH. intros y Hy. apply Hb. now right.
Qed.

Lemma emits_rangeKeys (rt : Runtime) (keys : list string) (P : Call -> Prop) :
  emits (rangeKeys (B:=B) rt keys) P (fun ks => exists n, ks = rangeOrder rt n keys).
Proof.
  intros w. exists []. cbn. rewrite app_nil_r. repeat split; [constructor |].
  intros a [= <-]. now exists (ranges w).
Qed.

(** [createDNSRecord] issues at most the one create call, for the record
    of the formatted value. *)
Lemma emits_createDNSRecord (p : MyraSecDNSProvider) (rt : Runtime)
    (dnsName recordType value : string) (ttl : Z) (P : Call -> Prop) :
  (forall domainID, Strconv.Atoi (domainId p) = inr domainID ->
     P (CallCreateDNSRecord
          (newRecord p dnsName recordType (formatRecordValue value recordType) ttl)
          domainID)) ->
  emits (createDNSRecord p rt dnsName recordType value ttl) P (fun _ => True).
Proof.
  intros HP. unfold createDNSRecord.
  destruct (Strconv.Atoi (domainId p)) as [err | domainID]; [apply emits_fail |].
  intros w. exists [CallCreateDNSRecord
    (newRecord p dnsName recordType (formatRecordValue value recordType) ttl) domainID].
  unfold apiCreateDNSRecord, record_call.
  destruct (CreateDNSRecord _ domainID (client w)) as [[err | r] b'] eqn:E.
  - destruct (createErrorIgnored rt err); cbn;
      (split; [reflexivity | split; [constructor; [now apply HP | constructor] | auto]]).
  - cbn. split; [reflexivity | split; [constructor; [now apply HP | constructor] | auto]].
Qed.

(** [deleteDNSRecord] issues at most the one delete call. *)
Lemma emits_deleteDNSRecord (p : MyraSecDNSProvider) (record : myrasec.DNSRecord)
    (P : Call -> Prop) :
  (forall domainID, Strconv.Atoi (domainId p) = inr domainID ->
     P (CallDeleteDNSRecord record domainID)) ->
  emits (deleteDNSRecord p record) P (fun _ => True).
Proof.
  intros HP. unfold deleteDNSRecord.
  destruct (Strconv.Atoi (domainId p)) as [err | domainID]; [now apply emits_ret |].
  apply emits_bind with (Q1 := fun _ => True).
  - apply emits_call; [now apply HP | auto].
  - intros _ _. now apply emits_ret.
Qed.


End Runs.

(** ** The record matcher and the maps of the update path *)

Lemma findMatchingRecords_In (records : list myrasec.DNSRecord) (dnsName recordType : string)
    (rec : myrasec.DNSRecord) :
  In rec (findMatchingRecords records dnsName recordType) ->
  In rec records /\ sameName (myrasec.Name rec) dnsName
  /\ myrasec.RecordType rec = recordType.
Proof.
  unfold findMatchingRecords. rewrite filter_In. intros [Hin Hb].
  apply andb_true_iff in Hb as [Hn Ht].
  apply String.eqb_eq in Hn, Ht. now repeat split.
Qed.

Lemma fold_insert_lookup (l : list myrasec.DNSRecord) (m : gmap string myrasec.DNSRecord)
    (v : string) (rec : myrasec.DNSRecord) :
  fold_left (fun (current : gmap string myrasec.DNSRecord) r =>
               <[myrasec.Value r := r]> current) l m !! v = Some rec ->
  (In rec l /\ myrasec.Value rec = v) \/ m !! v = Some rec.
Proof.
  revert m. induction l as [|r l IH]; intros m; cbn [fold_left]; [now right |].
  intros H. destruct (IH _ H) as [[Hin Hv] | Hm].
  - left. split; [now right | exact Hv].
  - destruct (decide (myrasec.Value r = v)) as [E | N].
    + rewrite E, lookup_insert_eq in Hm. injection Hm as <-. left. split; [now left | exact E].
    + rewrite lookup_insert_ne in Hm by exact N. now right.
Qed.

(** An entry of [current] is one of the existing records, under its own
    value. *)
Lemma currentByValue_lookup (existingRecords : list myrasec.DNSRecord) (v : string)
    (rec : myrasec.DNSRecord) :
  currentByValue existingRecords !! v = Some rec ->
  In rec existingRecords /\ myrasec.Value rec = v.
Proof.
  intros H. destruct (fold_insert_lookup _ _ _ _ H) as [Hin | Hm]; [exact Hin |].
  now rewrite lookup_empty in Hm.
Qed.

(** The retained record of a value has that value, and the name and type
    of the endpoint. *)
Lemma retained_record (p : MyraSecDNSProvider) (allRecords : list myrasec.DNSRecord)
    (ep : endpoint.Endpoint) (v : string) (rec : myrasec.DNSRecord) :
  retained p allRecords ep v = Some rec ->
  myrasec.Value rec = v /\ sameName (myrasec.Name rec) (fullName p ep)
  /\ myrasec.RecordType rec = endpoint.RecordType ep /\ In rec allRecords.
Proof.
  unfold retained. intros H. apply currentByValue_lookup in H as [Hin Hv].
  apply findMatchingRecords_In in Hin as (Hall & Hn & Ht). now repeat split.
Qed.

(** A desired value is a formatted one. *)
Lemma desiredValues_formatted (ep : endpoint.Endpoint) (v : string) :
  v ∈ desiredValues ep -> formatRecordValue v (endpoint.RecordType ep) = v.
Proof.
  unfold desiredValues. rewrite elem_of_list_to_set, list_elem_of_In, in_map_iff.
  intros (t & <- & _). apply formatRecordValue_idem.
Qed.

(** ** The update path *)

Section UpdatePath.

Context {B : Type} `{!MyraSecAPIClient B}.

Variable p : MyraSecDNSProvider.
Variable domainID : Z.
Hypothesis domainId_ok : Strconv.Atoi (domainId p) = inr domainID.

Lemma reconcileCall_mono (dnsName : string) (ttl : Z)
    (current : gmap string myrasec.DNSRecord) (k : string) (keys : list string)
    (desired desired' : gset string) (c : Call) :
  ~ In k keys ->
  (desired' = desired \/ desired' = desired ∖ {[k]}) ->
  reconcileCall p dnsName ttl current keys desired' domainID c ->
  reconcileCall p dnsName ttl current (k :: keys) desired domainID c.
Proof.
  intros Hk Hd. destruct c as [| | | r i | r i]; cbn; try tauto.
  - intros (-> & v & rec & Hin & Hc & Hv & Hdr & ->). split; [reflexivity |].
    exists v, rec. repeat split; try assumption; [now right |].
    destruct Hd as [-> | ->]; [exact Hv | set_solver].
  - intros (-> & v & Hin & Hc & Hv). split; [reflexivity |].
    exists v. repeat split; try assumption; [now right |].
    destruct Hd as [-> | ->]; [exact Hv |].
    intros Hv'. apply Hv. apply elem_of_difference. split; [exact Hv' |].
    rewrite elem_of_singleton. intros ->. contradiction.
Qed.

(** Step 1 sends only corrections and deletions of the visited entries
    and removes the visited keys from [desired]. *)
Lemma reconcileCurrent_spec (dnsName : string) (ttl : Z)
    (current : gmap string myrasec.DNSRecord) (keys : list string) :
  List.NoDup keys ->
  (forall k, In k keys -> is_Some (current !! k)) ->
  forall desired,
    emits (reconcileCurrent (B:=B) p dnsName ttl current keys desired)
      (reconcileCall p dnsName ttl current keys desired domainID)
      (fun desired' => desired' = desired ∖ list_to_set keys).
Proof.
  induction keys as [|k keys IH]; intros Hnd Hdom desired; cbn [reconcileCurrent].
  - apply emits_ret. set_solver.
  - apply NoDup_cons_iff in Hnd as [Hk Hnd].
    assert (Hdom' : forall k', In k' keys -> is_Some (current !! k'))
      by (intros k' Hk'; apply Hdom; now right).
    destruct (Hdom k (or_introl eq_refl)) as [rec Hrec]. rewrite Hrec.
    destruct (bool_decide (k ∈ desired)) eqn:Ein.
    + apply bool_decide_eq_true in Ein.
      apply emits_bind with (Q1 := fun d => d = desired ∖ {[k]}).
      * destruct (drifted p dnsName ttl rec) eqn:Edr; [|now apply emits_ret].
        rewrite domainId_ok.
        apply emits_bind with (Q1 := fun _ => True); [|intros _ _; now apply emits_ret].
        apply emits_call; [|auto]. cbn. split; [reflexivity |].
        exists k, rec. repeat split; try assumption. now left.
      * intros d ->.
        eapply emits_conseq; [apply (IH Hnd Hdom' (desired ∖ {[k]})) | |].
        -- intros c. apply reconcileCall_mono; [exact Hk | now right].
        -- intros d ->. set_solver.
    + apply bool_decide_eq_false in Ein.
      apply emits_bind with (Q1 := fun _ => True).
      * apply emits_deleteDNSRecord. intros i Hi.
        rewrite domainId_ok in Hi. injection Hi as <-. cbn. split; [reflexivity |].
        exists k. repeat split; try assumption. now left.
      * intros _ _.
        eapply emits_conseq; [apply (IH Hnd Hdom' desired) | |].
        -- intros c. apply reconcileCall_mono; [exact Hk | now left].
        -- intros d ->. set_solver.
Qed.

(** The calls of the update path for one endpoint: none for an endpoint
    that the safety policy blocks or that is not owned, and otherwise
    only what [updateCall] allows. *)
Lemma updateEndpoint_calls (rt : Runtime) (allRecords : list myrasec.DNSRecord)
    (txtRecords : gmap string string) (ep : endpoint.Endpoint) :
  RangeOrderOK rt ->
  emits (updateEndpoint (B:=B) p rt allRecords txtRecords ep)
    (fun c => blocked rt ep = false /\ ownedName p txtRecords ep = true
              /\ updateCall p allRecords ep domainID c)
    (fun _ => True).
Proof.
  intros Hrt. unfold updateEndpoint. fold (blocked rt ep).
  destruct (blocked rt ep) eqn:Eb; [now apply emits_ret |].
  destruct (ownedName p txtRecords ep) eqn:Eo; cbn [negb]; [|now apply emits_ret].
  set (current := currentByValue _).
  eapply emits_bind; [apply emits_rangeKeys |].
  intros keys [n ->]. cbv beta.
  pose proof (Hrt n (map_to_list current).*1) as Hperm.
  assert (Hnd : List.NoDup (rangeOrder rt n (map_to_list current).*1)).
  { apply NoDup_ListNoDup. rewrite Hperm. apply NoDup_fst_map_to_list. }
  assert (Hdom : forall k, In k (rangeOrder rt n (map_to_list current).*1) ->
                           is_Some (current !! k)).
  { intros k Hk. apply list_elem_of_In in Hk. rewrite Hperm in Hk.
    apply list_elem_of_fmap in Hk as ([k' rec] & -> & Hk).
    apply elem_of_map_to_list in Hk. now exists rec. }
  eapply emits_bind.
  - eapply emits_conseq;
      [apply (reconcileCurrent_spec (fullName p ep) (endpointTTL p ep) current _ Hnd Hdom
                (desiredValues ep)) | | intros a Ha; exact Ha].
    intros c Hc. repeat split; try reflexivity.
    destruct c as [| | | r i | r i]; cbn in Hc |- *; try contradiction.
    + destruct Hc as (-> & v & rec & _ & Hcur & Hv & Hdr & ->).
      split; [reflexivity |]. now exists v, rec.
    + destruct Hc as (-> & v & _ & Hcur & Hv).
      split; [reflexivity |]. now exists v.
  - intros desired' ->. cbv beta.
    eapply emits_bind; [apply emits_rangeKeys |].
    intros vals [n' ->]. cbv beta.
    apply emits_forEach. intros v Hv.
    apply emits_createDNSRecord. intros i Hi.
    rewrite domainId_ok in Hi. injection Hi as <-.
    repeat split; try reflexivity.
    apply list_elem_of_In in Hv. rewrite (Hrt n' _) in Hv.
    apply elem_of_elements, elem_of_difference in Hv as [Hdes Hnot].
    exists v. split; [exact Hdes |]. split.
    + unfold retained. fold current.
      destruct (current !! v) as [rec |] eqn:Ecur; [|reflexivity].
      exfalso. apply Hnot. rewrite elem_of_list_to_set, Hperm.
      apply list_elem_of_fmap. exists (v, rec). split; [reflexivity |].
      now apply elem_of_map_to_list.
    + now rewrite (desiredValues_formatted ep v Hdes).
Qed.

End UpdatePath.

(** ** The calls of the three paths *)

Section Paths.

Context {B : Type} `{!MyraSecAPIClient B}.

Variable p : MyraSecDNSProvider.
Variable rt : Runtime.

(** Step 1 of the update path touches records of [current] only,
    whatever the order of the visit. *)
Lemma reconcileCurrent_names (dnsName : string) (ttl : Z)
    (current : gmap string myrasec.DNSRecord) (keys : list string) (desired : gset string) :
  emits (reconcileCurrent (B:=B) p dnsName ttl current keys desired)
    (fun c => exists r rec v, callRecord c = Some r /\ current !! v = Some rec
                              /\ (r = rec \/ r = corrected p dnsName ttl rec))
    (fun _ => True).
Proof.
  revert desired. induction keys as [|k keys IH]; intros desired; cbn [reconcileCurrent].
  - now apply emits_ret.
  - destruct (current !! k) as [rec |] eqn:Hrec; [|apply IH].
    destruct (bool_decide (k ∈ desired)).
    + apply emits_bind with (Q1 := fun _ => True); [|intros d _; apply IH].
      destruct (drifted p dnsName ttl rec); [|now apply emits_ret].
      destruct (Strconv.Atoi (domainId p)) as [e | i]; [now apply emits_ret |].
      apply emits_bind with (Q1 := fun _ => True); [|intros _ _; now apply emits_ret].
      apply emits_call; [|auto].
      exists (corrected p dnsName ttl rec), rec, k. cbn. auto.
    + apply emits_bind with (Q1 := fun _ => True); [|intros _ _; apply IH].
      apply emits_deleteDNSRecord. intros i _.
      exists rec, rec, k. cbn. auto.
Qed.

(** Every call of the update path for an endpoint is a mutation of a
    record of the endpoint's name, and the endpoint is owned and not
    blocked. *)
Lemma updateEndpoint_names (allRecords : list myrasec.DNSRecord)
    (txtRecords : gmap string string) (ep : endpoint.Endpoint) :
  emits (updateEndpoint (B:=B) p rt allRecords txtRecords ep)
    (fun c => blocked rt ep = false /\ ownedName p txtRecords ep = true
              /\ exists n, callName c = Some n /\ sameName n (fullName p ep))
    (fun _ => True).
Proof.
  unfold updateEndpoint. fold (blocked rt ep).
  destruct (blocked rt ep) eqn:Eb; [now apply emits_ret |].
  destruct (ownedName p txtRecords ep) eqn:Eo; cbn [negb]; [|now apply emits_ret].
  eapply emits_bind; [apply emits_rangeKeys |]. intros keys _. cbv beta.
  apply emits_bind with (Q1 := fun _ => True).
  - eapply emits_conseq; [apply reconcileCurrent_names | | auto].
    intros c (r & rec & v & Hc & Hcur & Hr). repeat split; try reflexivity.
    apply currentByValue_lookup in Hcur as [Hin _].
    apply findMatchingRecords_In in Hin as (_ & Hn & _).
    unfold callName. rewrite Hc. cbn.
    destruct Hr as [-> | ->]; [now exists (myrasec.Name rec) |].
    now exists (fullName p ep).
  - intros desired' _. cbv beta.
    eapply emits_bind; [apply emits_rangeKeys |]. intros vals _. cbv beta.
    apply emits_forEach. intros v _. apply emits_createDNSRecord. intros i _.
    repeat split; try reflexivity. now exists (fullName p ep).
Qed.

(** Every call of the delete path for an endpoint deletes a matching
    record whose value is among the targets, and the endpoint is owned
    and not blocked. *)
Lemma deleteEndpoint_calls (allRecords : list myrasec.DNSRecord)
    (txtRecords : gmap string string) (ep : endpoint.Endpoint) :
  emits (deleteEndpoint (B:=B) p rt allRecords txtRecords ep)
    (fun c => blocked rt ep = false /\ ownedName p txtRecords ep = true
              /\ exists r i, c = CallDeleteDNSRecord r i
                 /\ In r (findMatchingRecords allRecords (fullName p ep)
                            (endpoint.RecordType ep))
                 /\ myrasec.Value r ∈ targetsToDelete ep)
    (fun _ => True).
Proof.
  unfold deleteEndpoint. fold (blocked rt ep).
  destruct (blocked rt ep) eqn:Eb; [now apply emits_ret |].
  destruct (ownedName p txtRecords ep) eqn:Eo; cbn [negb]; [|now apply emits_ret].
  destruct (Nat.eqb _ 0); [now apply emits_ret |].
  apply emits_forEach. intros r Hr.
  destruct (bool_decide (myrasec.Value r ∈ targetsToDelete ep)) eqn:Ev; cbn [negb];
    [|now apply emits_ret].
  apply bool_decide_eq_true in Ev.
  apply emits_deleteDNSRecord. intros i _.
  repeat split; try reflexivity. now exists r, i.
Qed.

(** Every call of the create path for an endpoint creates a record of
    the endpoint's name, and the endpoint is not blocked. *)
Lemma createEndpoint_calls (ep : endpoint.Endpoint) :
  emits (createEndpoint (B:=B) p rt ep)
    (fun c => blocked rt ep = false
              /\ exists r i, c = CallCreateDNSRecord r i
                             /\ myrasec.Name r = fullName p ep)
    (fun _ => True).
Proof.
  unfold createEndpoint. fold (blocked rt ep).
  destruct (blocked rt ep) eqn:Eb; [now apply emits_ret |].
  apply emits_bind with (Q1 := fun _ => True).
  - apply emits_forEach. intros t _. apply emits_createDNSRecord. intros i _.
    split; [reflexivity |]. now eexists _, i.
  - intros _ _. destruct (negb _); [|now apply emits_ret].
    apply emits_createDNSRecord. intros i _.
    split; [reflexivity |]. now eexists _, i.
Qed.


(** The run of [processUpdateActions]: nothing, or the list call alone,
    or the list call and then the loop over the endpoints on the
    snapshot. *)
Lemma processUpdateActions_run (oldEndpoints : list (option endpoint.Endpoint))
    (newEndpoints : list endpoint.Endpoint) (w : World B) :
  issued (processUpdateActions p rt oldEndpoints newEndpoints) w = []
  \/ exists domainID,
       Strconv.Atoi (domainId p) = inr domainID
       /\ (issued (processUpdateActions p rt oldEndpoints newEndpoints) w
             = [CallListDNSRecords domainID]
           \/ exists w1,
                calls w1 = calls w ++ [CallListDNSRecords domainID]
                /\ processUpdateActions p rt oldEndpoints newEndpoints w
                   = forEach newEndpoints
                       (updateEndpoint p rt (snapshot p w) (indexTXT (snapshot p w))) w1
                /\ issued (processUpdateActions p rt oldEndpoints newEndpoints) w
                   = CallListDNSRecords domainID
                       :: issued (forEach newEndpoints
                                    (updateEndpoint p rt (snapshot p w)
                                       (indexTXT (snapshot p w)))) w1).
Proof.
  unfold processUpdateActions, issued, snapshot.
  destruct (negb _); [left; cbn; apply drop_all |].
  destruct (Strconv.Atoi (domainId p)) as [e | domainID]; [left; cbn; apply drop_all |].
  right. exists domainID. split; [reflexivity |].
  unfold apiListDNSRecords, record_call.
  destruct (ListDNSRecords domainID (client w)) as [[e | allRecords] b'] eqn:E; cbn [fst].
  - left. cbn. now rewrite drop_app_length.
  - right.
    set (w1 := {| client := b'; calls := calls w ++ [CallListDNSRecords domainID];
                  ranges := ranges w |}).
    exists w1. split; [reflexivity |]. split; [reflexivity |].
    set (m := forEach newEndpoints _).
    assert (Hm : emits m (fun _ => True) (fun _ => True)).
    { apply emits_forEach. intros ep _.
      eapply emits_conseq; [apply updateEndpoint_names | auto | auto]. }
    destruct (Hm w1) as (cs & Ecs & _). rewrite Ecs. subst w1. cbn [calls].
    rewrite (drop_app_length (calls w ++ [CallListDNSRecords domainID])).
    rewrite <- app_assoc. now rewrite drop_app_length.
Qed.

(** The same for [processDeleteActions]. *)
Lemma processDeleteActions_run (endpoints : list endpoint.Endpoint) (w : World B) :
  issued (processDeleteActions p rt endpoints) w = []
  \/ exists domainID,
       Strconv.Atoi (domainId p) = inr domainID
       /\ (issued (processDeleteActions p rt endpoints) w = [CallListDNSRecords domainID]
           \/ exists w1,
                calls w1 = calls w ++ [CallListDNSRecords domainID]
                /\ processDeleteActions p rt endpoints w
                   = forEach endpoints
                       (deleteEndpoint p rt (snapshot p w) (indexTXT (snapshot p w))) w1
                /\ issued (processDeleteActions p rt endpoints) w
                   = CallListDNSRecords domainID
                       :: issued (forEach endpoints
                                    (deleteEndpoint p rt (snapshot p w)
                                       (indexTXT (snapshot p w)))) w1).
Proof.
  unfold processDeleteActions, issued, snapshot.
  destruct (Nat.eqb _ 0); [left; cbn; apply drop_all |].
  destruct (Strconv.Atoi (domainId p)) as [e | domainID]; [left; cbn; apply drop_all |].
  right. exists domainID. split; [reflexivity |].
  unfold apiListDNSRecords, record_call.
  destruct (ListDNSRecords domainID (client w)) as [[e | allRecords] b'] eqn:E; cbn [fst].
  - left. cbn. now rewrite drop_app_length.
  - right.
    set (w1 := {| client := b'; calls := calls w ++ [CallListDNSRecords domainID];
                  ranges := ranges w |}).
    exists w1. split; [reflexivity |]. split; [reflexivity |].
    set (m := forEach endpoints _).
    assert (Hm : emits m (fun _ => True) (fun _ => True)).
    { apply emits_forEach. intros ep _.
      eapply emits_conseq; [apply deleteEndpoint_calls | auto | auto]. }
    destruct (Hm w1) as (cs & Ecs & _). rewrite Ecs. subst w1. cbn [calls].
    rewrite (drop_app_length (calls w ++ [CallListDNSRecords domainID])).
    rewrite <- app_assoc. now rewrite drop_app_length.
Qed.

End Paths.

(** ** The ownership predicate *)

Module OwnershipFacts.

#[local] Arguments String.append : simpl nomatch.



End OwnershipFacts.




(** ** The claims on the update path *)

(** C9. The previous desired endpoints are informational only: two runs
    of [processUpdateActions] on the same new endpoints, from the same
    state of the world, with old-endpoint lists of the same length, issue
    the same backend calls and return the same result. *)
Theorem C9_old_endpoints_informational {B : Type} `{!MyraSecAPIClient B}
    (p : MyraSecDNSProvider) (rt : Runtime)
    (oldEndpoints1 oldEndpoints2 : list (option endpoint.Endpoint))
    (newEndpoints : list endpoint.Endpoint) (w : World B) :
  length oldEndpoints1 = length oldEndpoints2 ->
  processUpdateActions p rt oldEndpoints1 newEndpoints w
  = processUpdateActions p rt oldEndpoints2 newEndpoints w.
Proof.
  intros Hlen. unfold processUpdateActions. now rewrite Hlen.
Qed.

(** The run of the update path on a snapshot with a drifted record, given
    two different claims about the previous state. *)
Lemma C9_witness :
  length [Some (mkEndpoint "a.example.com" "A" ["1.1.1.1"])]
  = length [Some (mkEndpoint "zzz.example.com" "CNAME" ["other"])]
  /\ processUpdateActions exampleProvider devRuntime
       [Some (mkEndpoint "a.example.com" "A" ["1.1.1.1"])]
       [mkEndpoint "a.example.com" "A" ["2.2.2.2"]]
       (start (mockOver [mkRecord 1 "a.example.com" "TXT" ownerToken 300;
                         mkRecord 2 "a.example.com" "A" "1.1.1.1" 300]))
     = processUpdateActions exampleProvider devRuntime
       [Some (mkEndpoint "zzz.example.com" "CNAME" ["other"])]
       [mkEndpoint "a.example.com" "A" ["2.2.2.2"]]
       (start (mockOver [mkRecord 1 "a.example.com" "TXT" ownerToken 300;
                         mkRecord 2 "a.example.com" "A" "1.1.1.1" 300])).
Proof.
  split; [reflexivity |].
  apply (C9_old_endpoints_informational exampleProvider devRuntime). reflexivity.
Defined.

Section UpdateTask.

Context {B : Type} `{!MyraSecAPIClient B}.

(** The calls of an update task: the list call, and for the endpoint
    only what [updateCall] allows on the snapshot. *)
Lemma update_task_calls (p : MyraSecDNSProvider) (rt : Runtime)
    (old : option endpoint.Endpoint) (newEp : endpoint.Endpoint) (w : World B) :
  RangeOrderOK rt ->
  Forall (fun c => (exists i, c = CallListDNSRecords i)
                   \/ exists i, Strconv.Atoi (domainId p) = inr i
                                /\ blocked rt newEp = false
                                /\ ownedName p (indexTXT (snapshot p w)) newEp = true
                                /\ updateCall p (snapshot p w) newEp i c)
    (issued (processUpdateActions p rt [old] [newEp]) w).
Proof.
  intros Hrt.
  destruct (processUpdateActions_run p rt [old] [newEp] w)
    as [-> | (i & Hi & [-> | (w1 & _ & _ & ->)])].
  - constructor.
  - constructor; [left; now exists i | constructor].
  - constructor; [left; now exists i |].
    assert (Hm : emits (forEach [newEp]
                          (updateEndpoint p rt (snapshot p w) (indexTXT (snapshot p w))))
                   (fun c => blocked rt newEp = false
                             /\ ownedName p (indexTXT (snapshot p w)) newEp = true
                             /\ updateCall p (snapshot p w) newEp i c) (fun _ => True)).
    { apply emits_forEach. intros ep [<- | []].
      apply (updateEndpoint_calls p i Hi rt _ _ newEp Hrt). }
    destruct (issued_emits _ _ _ w1 Hm) as [_ HP].
    eapply Forall_impl; [exact HP |]. intros c Hc. right. now exists i.
Qed.

(** A call of an update task that carries a retained and desired value
    is the correction of the retained record, which has drifted. *)
Lemma update_task_retained (p : MyraSecDNSProvider) (rt : Runtime)
    (old : option endpoint.Endpoint) (newEp : endpoint.Endpoint) (w : World B)
    (value : string) (rec : myrasec.DNSRecord) :
  RangeOrderOK rt ->
  retained p (snapshot p w) newEp value = Some rec ->
  value ∈ desiredValues newEp ->
  Forall (fun c => callValue c = Some value ->
                   drifted p (fullName p newEp) (endpointTTL p newEp) rec = true
                   /\ exists i, c = CallUpdateDNSRecord
                                      (corrected p (fullName p newEp) (endpointTTL p newEp) rec) i)
    (issued (processUpdateActions p rt [old] [newEp]) w).
Proof.
  intros Hrt Hret Hdes.
  eapply Forall_impl; [apply (update_task_calls p rt old newEp w Hrt) |].
  intros c [[i ->] | (i & _ & _ & _ & Hc)]; [discriminate |].
  destruct c as [| | r j | r j | r j]; cbn in Hc; try contradiction; cbn.
  - destruct Hc as (-> & v & Hv & Hnone & ->). cbn. intros [= ->]. congruence.
  - destruct Hc as (-> & v & rec' & Hret' & Hv & Hdr & ->). cbn. intros [= Hval].
    destruct (retained_record _ _ _ _ _ Hret') as (Hv' & _).
    rewrite Hv' in Hval. subst v. rewrite Hret in Hret'. injection Hret' as <-.
    split; [exact Hdr | now exists i].
  - destruct Hc as (-> & v & Hret' & Hv). intros [= Hval].
    destruct (retained_record _ _ _ _ _ Hret') as (Hv' & _).
    rewrite Hv' in Hval. subst v. contradiction.
Qed.

End UpdateTask.

(** C5. For every update task and every value present in both the
    current record set and the desired value set: if the retained record
    has no attribute drift (its TTL is the desired TTL, its active flag the
    derived protection setting, its name the canonical name), no backend
    call is issued for that value. *)
Theorem C5_no_call_without_drift {B : Type} `{!MyraSecAPIClient B}
    (p : MyraSecDNSProvider) (rt : Runtime)
    (old : option endpoint.Endpoint) (newEp : endpoint.Endpoint) (w : World B)
    (value : string) (rec : myrasec.DNSRecord) :
  RangeOrderOK rt ->
  retained p (snapshot p w) newEp value = Some rec ->
  value ∈ desiredValues newEp ->
  drifted p (fullName p newEp) (endpointTTL p newEp) rec = false ->
  Forall (fun c => callValue c <> Some value)
    (issued (processUpdateActions p rt [old] [newEp]) w).
Proof.
  intros Hrt Hret Hdes Hdr.
  eapply Forall_impl; [apply (update_task_retained p rt old newEp w value rec Hrt Hret Hdes) |].
  intros c Hc Hval. destruct (Hc Hval) as [Hdr' _]. congruence.
Qed.

(** C8. Retention takes priority over recreation: for every update task
    and every value present in both the current record set and the desired
    value set, the calls of the task hold no deletion and no creation of
    that value (a call for it is the attribute-correcting update of the
    retained record); so no deletion of the value's record is ever followed
    by a creation of the same value. *)
Theorem C8_retention_over_recreation {B : Type} `{!MyraSecAPIClient B}
    (p : MyraSecDNSProvider) (rt : Runtime)
    (old : option endpoint.Endpoint) (newEp : endpoint.Endpoint) (w : World B)
    (value : string) (rec : myrasec.DNSRecord) :
  RangeOrderOK rt ->
  retained p (snapshot p w) newEp value = Some rec ->
  value ∈ desiredValues newEp ->
  let cs := issued (processUpdateActions p rt [old] [newEp]) w in
  Forall (fun c => callValue c = Some value ->
                   exists i, c = CallUpdateDNSRecord
                                   (corrected p (fullName p newEp) (endpointTTL p newEp) rec) i)
    cs
  /\ ~ (exists (i j : nat) r1 d1 r2 d2,
          (i < j)%nat
          /\ cs !! i = Some (CallDeleteDNSRecord r1 d1) /\ myrasec.Value r1 = value
          /\ cs !! j = Some (CallCreateDNSRecord r2 d2) /\ myrasec.Value r2 = value).
Proof.
  intros Hrt Hret Hdes cs.
  pose proof (update_task_retained p rt old newEp w value rec Hrt Hret Hdes) as H.
  fold cs in H. split.
  - eapply Forall_impl; [exact H |]. intros c Hc Hval. now destruct (Hc Hval).
  - intros (i & j & r1 & d1 & r2 & d2 & _ & Hi & Hv1 & _).
    apply list_elem_of_lookup_2 in Hi.
    rewrite Forall_forall in H. specialize (H _ Hi).
    cbn in H. rewrite Hv1 in H. destruct (H eq_refl) as (_ & k & Hk). discriminate.
Qed.

(** The runtimes of the examples visit every key once. *)
Lemma devRuntime_ok : RangeOrderOK devRuntime.
Proof. intros n keys. reflexivity. Defined.

Lemma prodRuntime_ok : RangeOrderOK prodRuntime.
Proof. intros n keys. reflexivity. Defined.

(** An update that keeps [1.1.1.1] and adds [2.2.2.2]: the list call and
    one creation. *)
Example update_keeps_and_adds :
  issued (processUpdateActions exampleProvider devRuntime [None]
            [mkEndpoint "a.example.com" "A" ["1.1.1.1"; "2.2.2.2"]])
    (start (mockOver [mkRecord 1 "a.example.com" "TXT" ownerToken 300;
                      mkRecord 2 "a.example.com" "A" "1.1.1.1" 300]))
  = [CallListDNSRecords 123;
     CallCreateDNSRecord (mkRecord 0 "a.example.com" "A" "2.2.2.2" 300) 123].
Proof. vm_compute. reflexivity. Qed.

(** An update that replaces [1.1.1.1] by [2.2.2.2]: the list call, the
    deletion and the creation. *)
Example update_replaces :
  issued (processUpdateActions exampleProvider devRuntime [None]
            [mkEndpoint "a.example.com." "A" ["2.2.2.2"]])
    (start (mockOver [mkRecord 1 "a.example.com" "TXT" ownerToken 300;
                      mkRecord 2 "a.example.com" "A" "1.1.1.1" 300]))
  = [CallListDNSRecords 123;
     CallDeleteDNSRecord (mkRecord 2 "a.example.com" "A" "1.1.1.1" 300) 123;
     CallCreateDNSRecord (mkRecord 0 "a.example.com" "A" "2.2.2.2" 300) 123].
Proof. vm_compute. reflexivity. Qed.

(** An update that keeps a record whose TTL has drifted: the list call
    and the correcting update. *)
Example update_corrects_drift :
  issued (processUpdateActions exampleProvider devRuntime [None]
            [mkEndpoint "a.example.com" "A" ["1.1.1.1"]])
    (start (mockOver [mkRecord 1 "a.example.com" "TXT" ownerToken 300;
                      mkRecord 2 "a.example.com" "A" "1.1.1.1" 60]))
  = [CallListDNSRecords 123;
     CallUpdateDNSRecord (mkRecord 2 "a.example.com" "A" "1.1.1.1" 300) 123].
Proof. vm_compute. reflexivity. Qed.

Lemma C5_witness :
  RangeOrderOK devRuntime
  /\ retained exampleProvider
       (snapshot exampleProvider
          (start (mockOver [mkRecord 1 "a.example.com" "TXT" ownerToken 300;
                            mkRecord 2 "a.example.com" "A" "1.1.1.1" 300])))
       (mkEndpoint "a.example.com" "A" ["1.1.1.1"; "2.2.2.2"]) "1.1.1.1"
     = Some (mkRecord 2 "a.example.com" "A" "1.1.1.1" 300)
  /\ "1.1.1.1" ∈ desiredValues (mkEndpoint "a.example.com" "A" ["1.1.1.1"; "2.2.2.2"])
  /\ Forall (fun c => callValue c <> Some "1.1.1.1")
       (issued (processUpdateActions exampleProvider devRuntime [None]
                  [mkEndpoint "a.example.com" "A" ["1.1.1.1"; "2.2.2.2"]])
          (start (mockOver [mkRecord 1 "a.example.com" "TXT" ownerToken 300;
                            mkRecord 2 "a.example.com" "A" "1.1.1.1" 300]))).
Proof.
  assert (Hret : retained exampleProvider
       (snapshot exampleProvider
          (start (mockOver [mkRecord 1 "a.example.com" "TXT" ownerToken 300;
                            mkRecord 2 "a.example.com" "A" "1.1.1.1" 300])))
       (mkEndpoint "a.example.com" "A" ["1.1.1.1"; "2.2.2.2"]) "1.1.1.1"
     = Some (mkRecord 2 "a.example.com" "A" "1.1.1.1" 300)) by (vm_compute; reflexivity).
  assert (Hdes : "1.1.1.1" ∈ desiredValues
                   (mkEndpoint "a.example.com" "A" ["1.1.1.1"; "2.2.2.2"])).
  { apply (bool_decide_unpack _). vm_compute. exact I. }
  split; [exact devRuntime_ok |]. split; [exact Hret |]. split; [exact Hdes |].
  apply (C5_no_call_without_drift exampleProvider devRuntime None _ _ "1.1.1.1"
           (mkRecord 2 "a.example.com" "A" "1.1.1.1" 300) devRuntime_ok Hret Hdes).
  vm_compute. reflexivity.
Defined.

Lemma C8_witness :
  RangeOrderOK devRuntime
  /\ retained exampleProvider
       (snapshot exampleProvider
          (start (mockOver [mkRecord 1 "a.example.com" "TXT" ownerToken 300;
                            mkRecord 2 "a.example.com" "A" "1.1.1.1" 60])))
       (mkEndpoint "a.example.com" "A" ["1.1.1.1"; "2.2.2.2"]) "1.1.1.1"
     = Some (mkRecord 2 "a.example.com" "A" "1.1.1.1" 60)
  /\ "1.1.1.1" ∈ desiredValues (mkEndpoint "a.example.com" "A" ["1.1.1.1"; "2.2.2.2"])
  /\ let cs := issued (processUpdateActions exampleProvider devRuntime [None]
                         [mkEndpoint "a.example.com" "A" ["1.1.1.1"; "2.2.2.2"]])
                 (start (mockOver [mkRecord 1 "a.example.com" "TXT" ownerToken 300;
                                   mkRecord 2 "a.example.com" "A" "1.1.1.1" 60])) in
     Forall (fun c => callValue c = Some "1.1.1.1" ->
               exists i, c = CallUpdateDNSRecord
                 (corrected exampleProvider
                    (fullName exampleProvider
                       (mkEndpoint "a.example.com" "A" ["1.1.1.1"; "2.2.2.2"]))
                    (endpointTTL exampleProvider
                       (mkEndpoint "a.example.com" "A" ["1.1.1.1"; "2.2.2.2"]))
                    (mkRecord 2 "a.example.com" "A" "1.1.1.1" 60)) i) cs
     /\ ~ (exists (i j : nat) r1 d1 r2 d2,
             (i < j)%nat
             /\ cs !! i = Some (CallDeleteDNSRecord r1 d1) /\ myrasec.Value r1 = "1.1.1.1"
             /\ cs !! j = Some (CallCreateDNSRecord r2 d2) /\ myrasec.Value r2 = "1.1.1.1").
Proof.
  assert (Hret : retained exampleProvider
       (snapshot exampleProvider
          (start (mockOver [mkRecord 1 "a.example.com" "TXT" ownerToken 300;
                            mkRecord 2 "a.example.com" "A" "1.1.1.1" 60])))
       (mkEndpoint "a.example.com" "A" ["1.1.1.1"; "2.2.2.2"]) "1.1.1.1"
     = Some (mkRecord 2 "a.example.com" "A" "1.1.1.1" 60)) by (vm_compute; reflexivity).
  assert (Hdes : "1.1.1.1" ∈ desiredValues
                   (mkEndpoint "a.example.com" "A" ["1.1.1.1"; "2.2.2.2"])).
  { apply (bool_decide_unpack _). vm_compute. exact I. }
  split; [exact devRuntime_ok |]. split; [exact Hret |]. split; [exact Hdes |].
  exact (C8_retention_over_recreation exampleProvider devRuntime None _ _ "1.1.1.1"
           (mkRecord 2 "a.example.com" "A" "1.1.1.1" 60) devRuntime_ok Hret Hdes).
Defined.

(** ** Ownership and the mutation paths *)




(** ** The safety policy *)


Section Blocked.

Context {B : Type} `{!MyraSecAPIClient B}.

Variable p : MyraSecDNSProvider.
Variable rt : Runtime.
Variable ep : endpoint.Endpoint.
Hypothesis production : isProduction rt = true.
Hypothesis private : isPrivateEndpoint ep = true.




End Blocked.



(** ** The entry point and the executor *)

(** C6. For every change batch whose [UpdateOld] and [UpdateNew] lists
    have different lengths, [ApplyChangesWithWorkers] (and so
    [ApplyChanges]) returns the validation error and leaves the provider
    and the world as they were: no backend call is issued, no domain is
    looked up and no task runs. *)
Theorem C6_update_slices_mismatch {B : Type} `{!MyraSecAPIClient B}
    (p : MyraSecDNSProvider) (rt : Runtime) (changes : plan.Changes) (w : World B) :
  length (plan.UpdateOld changes) <> length (plan.UpdateNew changes) ->
  ApplyChangesWithWorkers p rt changes w = (inl ErrUpdateSlicesMismatch, p, w)
  /\ ApplyChanges p rt changes w = (inl ErrUpdateSlicesMismatch, p, w)
  /\ calls (snd (ApplyChanges p rt changes w)) = calls w.
Proof.
  intros Hlen. apply Nat.eqb_neq in Hlen.
  assert (E : ApplyChangesWithWorkers p rt changes w = (inl ErrUpdateSlicesMismatch, p, w)).
  { unfold ApplyChangesWithWorkers. now rewrite Hlen. }
  unfold ApplyChanges. rewrite E. now repeat split.
Qed.

Lemma C6_witness :
  length (plan.UpdateOld unequalChanges) <> length (plan.UpdateNew unequalChanges)
  /\ ApplyChanges exampleProvider devRuntime unequalChanges (start (mockOver []))
     = (inl ErrUpdateSlicesMismatch, exampleProvider, start (mockOver [])).
Proof.
  assert (H : length (plan.UpdateOld unequalChanges)
              <> length (plan.UpdateNew unequalChanges)) by (cbn; lia).
  split; [exact H |].
  destruct (C6_update_slices_mismatch exampleProvider devRuntime unequalChanges
              (start (mockOver [])) H) as (_ & E & _).
  exact E.
Defined.

Section Duplicates.

Context {B : Type} `{!MyraSecAPIClient B}.

Variable p : MyraSecDNSProvider.
Variable rt : Runtime.
Variable domainID : Z.
Hypothesis domainId_ok : Strconv.Atoi (domainId p) = inr domainID.






End Duplicates.


(** A batch with one creation against a backend that reports a duplicate
    for every create call: the batch succeeds, after the domain lookup and
    the two create calls. *)
Example duplicate_batch_succeeds :
  let '(r, _, w) := ApplyChanges exampleProvider devRuntime createChanges
                      (start mockDuplicate) in
  r = inr tt
  /\ calls w = [CallListDomains;
                CallCreateDNSRecord (mkRecord 0 "a.example.com" "A" "1.1.1.1" 300) 123;
                CallCreateDNSRecord (mkRecord 0 "a.example.com" "TXT" ownerToken 300) 123].
Proof. vm_compute. split; reflexivity. Qed.



(** ** Runs against the reference backend *)

(** A create task applied twice: the second application sends the same
    two create calls again; the backend refuses them as duplicates, the
    task succeeds and the store stays as it was. *)
Example create_twice :
  let w1 := snd (processCreateActions exampleProvider devRuntime
                   [mkEndpoint "a.example.com" "A" ["1.1.1.1"]] (start (exampleStore []))) in
  let r2 := processCreateActions exampleProvider devRuntime
              [mkEndpoint "a.example.com" "A" ["1.1.1.1"]] w1 in
  storeRecords (client w1)
  = [mkRecord 100 "a.example.com" "A" "1.1.1.1" 300;
     mkRecord 101 "a.example.com" "TXT" ownerToken 300]
  /\ fst r2 = inr tt
  /\ client (snd r2) = client w1
  /\ issued (processCreateActions exampleProvider devRuntime
               [mkEndpoint "a.example.com" "A" ["1.1.1.1"]]) w1
     = [CallCreateDNSRecord (mkRecord 0 "a.example.com" "A" "1.1.1.1" 300) 123;
        CallCreateDNSRecord (mkRecord 0 "a.example.com" "TXT" ownerToken 300) 123].
Proof. vm_compute. repeat split; reflexivity. Qed.

(** An update task applied twice: the second application sends the list
    call only. *)
Example update_twice :
  let ep := mkEndpoint "a.example.com" "A" ["2.2.2.2"; "3.3.3.3"] in
  let w0 := start (exampleStore [mkRecord 1 "a.example.com" "TXT" ownerToken 300;
                                 mkRecord 2 "a.example.com." "A" "1.1.1.1" 300;
                                 mkRecord 3 "a.example.com" "A" "2.2.2.2" 60]) in
  let w1 := snd (processUpdateActions exampleProvider devRuntime [None] [ep] w0) in
  issued (processUpdateActions exampleProvider devRuntime [None] [ep]) w0
  = [CallListDNSRecords 123;
     CallDeleteDNSRecord (mkRecord 2 "a.example.com." "A" "1.1.1.1" 300) 123;
     CallUpdateDNSRecord (mkRecord 3 "a.example.com" "A" "2.2.2.2" 300) 123;
     CallCreateDNSRecord (mkRecord 0 "a.example.com" "A" "3.3.3.3" 300) 123]
  /\ storeRecords (client w1)
     = [mkRecord 1 "a.example.com" "TXT" ownerToken 300;
        mkRecord 3 "a.example.com" "A" "2.2.2.2" 300;
        mkRecord 100 "a.example.com" "A" "3.3.3.3" 300]
  /\ issued (processUpdateActions exampleProvider devRuntime [None] [ep]) w1
     = [CallListDNSRecords 123].
Proof. vm_compute. repeat split; reflexivity. Qed.

(** A delete task applied twice: the second application sends the list
    call only. *)
Example delete_twice :
  let ep := mkEndpoint "a.example.com" "A" ["1.1.1.1"] in
  let w0 := start (exampleStore [mkRecord 1 "a.example.com" "TXT" ownerToken 300;
                                 mkRecord 2 "a.example.com." "A" "1.1.1.1" 300;
                                 mkRecord 3 "a.example.com" "A" "2.2.2.2" 60]) in
  let w1 := snd (processDeleteActions exampleProvider devRuntime [ep] w0) in
  issued (processDeleteActions exampleProvider devRuntime [ep]) w0
  = [CallListDNSRecords 123;
     CallDeleteDNSRecord (mkRecord 2 "a.example.com." "A" "1.1.1.1" 300) 123]
  /\ storeRecords (client w1)
     = [mkRecord 1 "a.example.com" "TXT" ownerToken 300;
        mkRecord 3 "a.example.com" "A" "2.2.2.2" 60]
  /\ issued (processDeleteActions exampleProvider devRuntime [ep]) w1
     = [CallListDNSRecords 123].
Proof. vm_compute. repeat split; reflexivity. Qed.

(** A batch with an update and a deletion against a backend that applies
    every call: the domain lookup, then the two tasks in turn. *)
Example batch_applied :
  let '(r, _, w) := ApplyChanges exampleProvider devRuntime updateDeleteChanges
                      (start (mockOver twoNames)) in
  r = inr tt
  /\ calls w = [CallListDomains;
                CallListDNSRecords 123;
                CallUpdateDNSRecord (mkRecord 2 "a.example.com" "A" "1.1.1.1" 300) 123;
                CallListDNSRecords 123;
                CallDeleteDNSRecord (mkRecord 4 "b.example.com" "A" "4.4.4.4" 300) 123].
Proof. vm_compute. split; reflexivity. Qed.

(** The same batch against a backend whose update call fails: the error
    of the update task is the error of the batch, and the deletion that was
    still queued is not run. *)
Example batch_first_error :
  let '(r, _, w) := ApplyChanges exampleProvider devRuntime updateDeleteChanges
                      (start (mockFailingUpdate twoNames)) in
  r = inl (errorString "backend unavailable")
  /\ calls w = [CallListDomains;
                CallListDNSRecords 123;
                CallUpdateDNSRecord (mkRecord 2 "a.example.com" "A" "1.1.1.1" 300) 123].
Proof. vm_compute. split; reflexivity. Qed.

(** An empty batch: success, and nothing reaches the backend. *)
Example batch_empty :
  ApplyChanges exampleProvider devRuntime
    {| plan.Create := []; plan.UpdateOld := []; plan.UpdateNew := []; plan.Delete := [] |}
    (start (mockOver twoNames))
  = (inr tt, exampleProvider, start (mockOver twoNames)).
Proof. reflexivity. Qed.

(** In dry-run mode the tasks reach the backend with no call but the
    domain lookup. *)
Example batch_dry_run :
  let p := setCachedDomains exampleProvider [] in
  let dry := {| domainFilter := domainFilter p; domainId := domainId p;
                domainName := domainName p; dryRun := true;
                cachedDomains := cachedDomains p; ttl := ttl p; owner := owner p;
                disableProtection := disableProtection p |} in
  let '(r, _, w) := ApplyChanges dry devRuntime updateDeleteChanges
                      (start (mockOver twoNames)) in
  r = inr tt /\ calls w = [CallListDomains].
Proof. vm_compute. split; reflexivity. Qed.

(** ** The round trip of an update task on the reference backend *)

Lemma omap_pointwise {A C} (f f' : A -> option C) (l : list A) :
  (forall x, In x l -> f x = f' x) -> omap f l = omap f' l.
Proof.
  induction l as [|x l IH]; intros H; cbn; [reflexivity |].
  rewrite (H x (or_introl eq_refl)), IH; [reflexivity |].
  intros y Hy. apply H. now right.
Qed.

Lemma map_omap_pointwise {A C} (g : C -> C) (f f' : A -> option C) (l : list A) :
  (forall x, In x l -> g <$> f x = f' x) -> List.map g (omap f l) = omap f' l.
Proof.
  induction l as [|x l IH]; intros H; cbn; [reflexivity |].
  rewrite <- (H x (or_introl eq_refl)).
  destruct (f x) as [y |]; cbn; rewrite IH; try reflexivity;
    intros z Hz; apply H; now right.
Qed.

Lemma filter_omap_pointwise {A C} (q : C -> bool) (f f' : A -> option C) (l : list A) :
  (forall x, In x l -> f' x = match f x with
                             | Some y => if q y then Some y else None
                             | None => None
                             end) ->
  List.filter q (omap f l) = omap f' l.
Proof.
  induction l as [|x l IH]; intros H; cbn; [reflexivity |].
  rewrite (H x (or_introl eq_refl)).
  assert (IH' : List.filter q (omap f l) = omap f' l)
    by (apply IH; intros z Hz; apply H; now right).
  destruct (f x) as [y |]; cbn; [|exact IH'].
  destruct (q y); now rewrite IH'.
Qed.

Lemma In_omap {A C} (f : A -> option C) (l : list A) (y : C) :
  In y (omap f l) <-> exists x, In x l /\ f x = Some y.
Proof.
  rewrite <- list_elem_of_In, list_elem_of_omap.
  split; intros (x & Hx & Hf); exists x; [rewrite <- list_elem_of_In | rewrite list_elem_of_In];
    now split.
Qed.

(** In a store in order a record is known by its identifier. *)
Lemma same_ID (l : list myrasec.DNSRecord) (x y : myrasec.DNSRecord) :
  List.NoDup (List.map myrasec.ID l) -> In x l -> In y l ->
  myrasec.ID x = myrasec.ID y -> x = y.
Proof.
  induction l as [|a l IH]; cbn; [tauto |].
  intros Hnd Hx Hy E. apply NoDup_cons_iff in Hnd as [Ha Hnd].
  destruct Hx as [-> | Hx], Hy as [-> | Hy]; [reflexivity | | | now apply IH].
  - exfalso. apply Ha. rewrite E. now apply in_map.
  - exfalso. apply Ha. rewrite <- E. now apply in_map.
Qed.

Lemma inGroup_findMatchingRecords (records : list myrasec.DNSRecord)
    (dnsName recordType : string) (r : myrasec.DNSRecord) :
  In r (findMatchingRecords records dnsName recordType)
  <-> In r records /\ inGroup dnsName recordType r = true.
Proof. unfold findMatchingRecords. now rewrite filter_In. Qed.

Lemma fold_insert_some (l : list myrasec.DNSRecord) (m : gmap string myrasec.DNSRecord)
    (v : string) :
  is_Some (m !! v) \/ (exists r, In r l /\ myrasec.Value r = v) ->
  is_Some (fold_left (fun (current : gmap string myrasec.DNSRecord) r =>
                        <[myrasec.Value r := r]> current) l m !! v).
Proof.
  revert m. induction l as [|a l IH]; intros m; cbn [fold_left].
  - intros [H | (r & [] & _)]. exact H.
  - intros H. apply IH.
    destruct (decide (myrasec.Value a = v)) as [E | N].
    + left. rewrite <- E, lookup_insert_eq. now eexists.
    + destruct H as [H | (r & [-> | Hr] & Hv)].
      * left. now rewrite lookup_insert_ne.
      * contradiction.
      * right. now exists r.
Qed.

(** Every existing record has its value among the keys of [current]. *)
Lemma currentByValue_some (existingRecords : list myrasec.DNSRecord)
    (r : myrasec.DNSRecord) :
  In r existingRecords -> is_Some (currentByValue existingRecords !! myrasec.Value r).
Proof.
  intros Hr. apply fold_insert_some. right. now exists r.
Qed.

Lemma drifted_corrected (p : MyraSecDNSProvider) (dnsName : string) (ttl : Z)
    (r : myrasec.DNSRecord) :
  drifted p dnsName ttl (corrected p dnsName ttl r) = false.
Proof.
  unfold drifted, corrected. cbn.
  rewrite Z.eqb_refl, String.eqb_refl. now destruct (disableProtection p).
Qed.

(** A record without drift is its own correction. *)
Lemma corrected_fixed (p : MyraSecDNSProvider) (dnsName : string) (ttl : Z)
    (r : myrasec.DNSRecord) :
  drifted p dnsName ttl r = false -> corrected p dnsName ttl r = r.
Proof.
  unfold drifted, corrected. intros H.
  apply orb_false_iff in H as [H Hn]. apply orb_false_iff in H as [Ht Ha].
  apply negb_false_iff in Hn, Ht, Ha.
  apply String.eqb_eq in Hn. apply Z.eqb_eq in Ht. apply Bool.eqb_prop in Ha.
  destruct r as [id n v t l a e]. cbn in *. now subst.
Qed.

Lemma inGroup_corrected (p : MyraSecDNSProvider) (dnsName recordType : string) (ttl : Z)
    (r : myrasec.DNSRecord) :
  inGroup dnsName recordType r = true ->
  inGroup dnsName recordType (corrected p dnsName ttl r) = true.
Proof.
  unfold inGroup, corrected. cbn. intros H. apply andb_true_iff in H as [_ Ht].
  now rewrite String.eqb_refl, Ht.
Qed.

Section UpdateRoundTrip.

Variable p : MyraSecDNSProvider.
Variable ep : endpoint.Endpoint.
Variable domainID : Z.
Hypothesis domainId_ok : Strconv.Atoi (domainId p) = inr domainID.

(** The records of the store when the task starts. *)
Variable records : list myrasec.DNSRecord.
Hypothesis ids_distinct : List.NoDup (List.map myrasec.ID records).
Hypothesis keys_distinct :
  forall r1 r2, In r1 records -> In r2 records -> sameKey r1 r2 = true -> r1 = r2.

Local Abbreviation dnsName := (fullName p ep).
Local Abbreviation recordType := (endpoint.RecordType ep).
Local Abbreviation ttl := (endpointTTL p ep).
Local Abbreviation current := (currentByValue (findMatchingRecords records dnsName recordType)).
Local Abbreviation desired := (desiredValues ep).

(** An entry of [current] is a record of the store that matches. *)
Lemma current_entry (k : string) (rec : myrasec.DNSRecord) :
  current !! k = Some rec ->
  In rec records /\ inGroup dnsName recordType rec = true /\ myrasec.Value rec = k.
Proof.
  intros H. apply currentByValue_lookup in H as [Hin Hv].
  apply inGroup_findMatchingRecords in Hin as [Hin Hg]. now repeat split.
Qed.

(** The entry of a value is the only matching record with that value. *)
Lemma current_only (k : string) (rec x : myrasec.DNSRecord) :
  current !! k = Some rec -> In x records ->
  inGroup dnsName recordType x = true -> myrasec.Value x = k -> x = rec.
Proof.
  intros Hc Hx Hg Hv. destruct (current_entry k rec Hc) as (Hin & Hg' & Hv').
  apply keys_distinct; [exact Hx | exact Hin |].
  unfold sameKey. unfold inGroup in Hg, Hg'.
  apply andb_true_iff in Hg as [Hn Ht], Hg' as [Hn' Ht'].
  apply String.eqb_eq in Hn, Ht, Hn', Ht'.
  rewrite Hn, Hn', Ht, Ht', Hv, Hv', !String.eqb_refl. reflexivity.
Qed.

Lemma settled_ID (K : gset string) (x y : myrasec.DNSRecord) :
  settled p ep K x = Some y -> myrasec.ID y = myrasec.ID x.
Proof.
  unfold settled. destruct (_ && _); [|now intros [= <-]].
  destruct (bool_decide _); [now intros [= <-] | discriminate].
Qed.

(** A record other than the entry of [k] is settled as before once [k]
    is visited. *)
Lemma settled_other (K : gset string) (k : string) (rec x : myrasec.DNSRecord) :
  current !! k = Some rec -> In x records -> x <> rec ->
  settled p ep ({[k]} ∪ K) x = settled p ep K x.
Proof.
  intros Hc Hx Hne. unfold settled.
  destruct (inGroup dnsName recordType x) eqn:Hg; [|reflexivity]. cbn [andb].
  assert (Hv : myrasec.Value x <> k)
    by (intros Hv; apply Hne; now apply (current_only k rec x)).
  assert (E : bool_decide (myrasec.Value x ∈ {[k]} ∪ K) = bool_decide (myrasec.Value x ∈ K)).
  { apply bool_decide_ext. set_solver. }
  now rewrite E.
Qed.

(** The entry of an unvisited value is still in the store as it was. *)
Lemma settled_unvisited (K : gset string) (k : string) (rec : myrasec.DNSRecord) :
  current !! k = Some rec -> k ∉ K -> settled p ep K rec = Some rec.
Proof.
  intros Hc Hk. destruct (current_entry k rec Hc) as (_ & _ & Hv).
  unfold settled. rewrite Hv, (bool_decide_eq_false_2 _ Hk). now rewrite andb_false_r.
Qed.

Lemma settled_visited (K : gset string) (k : string) (rec : myrasec.DNSRecord) :
  current !! k = Some rec ->
  settled p ep ({[k]} ∪ K) rec
  = if bool_decide (k ∈ desired) then Some (corrected p dnsName ttl rec) else None.
Proof.
  intros Hc. destruct (current_entry k rec Hc) as (_ & Hg & Hv).
  unfold settled. rewrite Hg, Hv. cbn [andb].
  rewrite bool_decide_eq_true_2 by set_solver. reflexivity.
Qed.

Lemma entry_found (K : gset string) (k : string) (rec : myrasec.DNSRecord) :
  current !! k = Some rec -> k ∉ K ->
  existsb (hasID (myrasec.ID rec)) (omap (settled p ep K) records) = true.
Proof.
  intros Hc Hk. apply existsb_exists. exists rec. split.
  - apply In_omap. exists rec. split; [apply (current_entry k rec Hc) |].
    now apply settled_unvisited with (k := k).
  - unfold hasID. apply Z.eqb_refl.
Qed.

Lemma other_ID (K : gset string) (k : string) (rec x y : myrasec.DNSRecord) :
  current !! k = Some rec -> In x records -> x <> rec ->
  settled p ep K x = Some y -> hasID (myrasec.ID rec) y = false.
Proof.
  intros Hc Hx Hne Hy. unfold hasID. apply Z.eqb_neq. intros E.
  apply Hne. apply (same_ID records); [exact ids_distinct | exact Hx | |].
  - apply (current_entry k rec Hc).
  - rewrite <- E. symmetry. now apply settled_ID with (K := K).
Qed.

(** The correcting update of the entry of [k]. *)
Lemma step_update (K : gset string) (k : string) (rec : myrasec.DNSRecord) :
  current !! k = Some rec -> k ∉ K -> k ∈ desired ->
  List.map (fun x => if hasID (myrasec.ID (corrected p dnsName ttl rec)) x
                     then corrected p dnsName ttl rec else x)
    (omap (settled p ep K) records)
  = omap (settled p ep ({[k]} ∪ K)) records.
Proof.
  intros Hc Hk Hd. apply map_omap_pointwise. intros x Hx.
  destruct (decide (x = rec)) as [-> | Hne].
  - rewrite (settled_unvisited K k rec Hc Hk), (settled_visited K k rec Hc).
    rewrite (bool_decide_eq_true_2 _ Hd). cbn. unfold hasID. now rewrite Z.eqb_refl.
  - rewrite (settled_other K k rec x Hc Hx Hne).
    destruct (settled p ep K x) as [y |] eqn:Ey; [|reflexivity]. cbn.
    change (myrasec.ID (corrected p dnsName ttl rec)) with (myrasec.ID rec).
    now rewrite (other_ID K k rec x y Hc Hx Hne Ey).
Qed.

(** The entry of [k] kept as it is. *)
Lemma step_keep (K : gset string) (k : string) (rec : myrasec.DNSRecord) :
  current !! k = Some rec -> k ∉ K -> k ∈ desired ->
  drifted p dnsName ttl rec = false ->
  omap (settled p ep K) records = omap (settled p ep ({[k]} ∪ K)) records.
Proof.
  intros Hc Hk Hd Hdr. apply omap_pointwise. intros x Hx.
  destruct (decide (x = rec)) as [-> | Hne].
  - rewrite (settled_unvisited K k rec Hc Hk), (settled_visited K k rec Hc).
    rewrite (bool_decide_eq_true_2 _ Hd). now rewrite corrected_fixed.
  - now rewrite (settled_other K k rec x Hc Hx Hne).
Qed.

(** The deletion of the entry of [k]. *)
Lemma step_delete (K : gset string) (k : string) (rec : myrasec.DNSRecord) :
  current !! k = Some rec -> k ∉ K -> k ∉ desired ->
  List.filter (fun x => negb (hasID (myrasec.ID rec) x)) (omap (settled p ep K) records)
  = omap (settled p ep ({[k]} ∪ K)) records.
Proof.
  intros Hc Hk Hd. apply filter_omap_pointwise. intros x Hx.
  destruct (decide (x = rec)) as [-> | Hne].
  - rewrite (settled_unvisited K k rec Hc Hk), (settled_visited K k rec Hc).
    rewrite (bool_decide_eq_false_2 _ Hd). unfold hasID. now rewrite Z.eqb_refl.
  - rewrite (settled_other K k rec x Hc Hx Hne).
    destruct (settled p ep K x) as [y |] eqn:Ey; [|reflexivity].
    now rewrite (other_ID K k rec x y Hc Hx Hne Ey).
Qed.

(** Step 1 on the reference backend: every call succeeds, and the store
    holds the records of the snapshot as the visit has settled them. *)
Lemma reconcileCurrent_store (keys : list string) :
  forall (K want : gset string) (w : World MemStore),
    List.NoDup keys ->
    (forall k, In k keys -> k ∉ K /\ is_Some (current !! k) /\ (k ∈ want <-> k ∈ desired)) ->
    storeRecords (client w) = omap (settled p ep K) records ->
    exists w',
      reconcileCurrent p dnsName ttl current keys want w
      = (inr (want ∖ list_to_set keys), w')
      /\ storeRecords (client w') = omap (settled p ep (list_to_set keys ∪ K)) records
      /\ storeNextID (client w') = storeNextID (client w).
Proof.
  induction keys as [|k keys IH]; intros K want w Hnd Hkeys Hstore; cbn [reconcileCurrent].
  - exists w. cbn [list_to_set foldr].
    assert (E1 : want ∖ ∅ = want) by set_solver.
    assert (E2 : ∅ ∪ K = K) by set_solver.
    change (list_to_set []) with (∅ : gset string).
    rewrite E1, E2. now repeat split.
  - apply NoDup_cons_iff in Hnd as [Hk Hnd].
    destruct (Hkeys k (or_introl eq_refl)) as (HkK & [rec Hrec] & Hwant).
    rewrite Hrec.
    assert (Hrest : forall want', (want' = want \/ want' = want ∖ {[k]}) ->
              forall k', In k' keys ->
                k' ∉ {[k]} ∪ K /\ is_Some (current !! k') /\ (k' ∈ want' <-> k' ∈ desired)).
    { intros want' Hw k' Hk'. destruct (Hkeys k' (or_intror Hk')) as (H1 & H2 & H3).
      assert (k' <> k) by (intros ->; contradiction).
      repeat split; [set_solver | exact H2 | |].
      - intros H'. apply H3. destruct Hw as [-> | ->]; set_solver.
      - intros H'. apply H3 in H'. destruct Hw as [-> | ->]; set_solver. }
    assert (Hset : (list_to_set keys : gset string) ∪ ({[k]} ∪ K)
                   = list_to_set (k :: keys) ∪ K) by set_solver.
    assert (Hwant1 : (want ∖ {[k]}) ∖ list_to_set keys = want ∖ list_to_set (k :: keys))
      by set_solver.
    assert (Hwant0 : k ∉ want -> want ∖ list_to_set keys = want ∖ list_to_set (k :: keys))
      by set_solver.
    destruct (bool_decide (k ∈ want)) eqn:Ein.
    + apply bool_decide_eq_true in Ein. pose proof (proj1 Hwant Ein) as Hd.
      rewrite bind_run.
      destruct (drifted p dnsName ttl rec) eqn:Edr.
      * rewrite domainId_ok. rewrite bind_run.
        unfold apiUpdateDNSRecord, record_call. cbn [UpdateDNSRecord MemStore_client].
        unfold memUpdate. rewrite Hstore.
        change (myrasec.ID (corrected p dnsName ttl rec)) with (myrasec.ID rec) at 1.
        rewrite (entry_found K k rec Hrec HkK).
        rewrite (step_update K k rec Hrec HkK Hd).
        unfold mret, M_ret.
        match goal with
        | |- context [reconcileCurrent _ _ _ _ keys ?d ?w1] =>
            destruct (IH ({[k]} ∪ K) d w1 Hnd (Hrest d (or_intror eq_refl)) eq_refl)
              as (w' & E & Hs & Hn)
        end.
        exists w'. cbn in E |- *. rewrite E, Hwant1. repeat split.
        -- now rewrite Hs, Hset.
        -- exact Hn.
      * assert (Hstore' : storeRecords (client w) = omap (settled p ep ({[k]} ∪ K)) records)
          by (rewrite Hstore; now apply step_keep with (rec := rec)).
        destruct (IH ({[k]} ∪ K) (want ∖ {[k]}) w Hnd
                    (Hrest _ (or_intror eq_refl)) Hstore') as (w' & E & Hs & Hn).
        exists w'. cbn. rewrite E, Hwant1. repeat split.
        -- now rewrite Hs, Hset.
        -- exact Hn.
    + apply bool_decide_eq_false in Ein.
      assert (Hd : k ∉ desired) by (intros H; apply Ein; now apply Hwant).
      rewrite bind_run. unfold deleteDNSRecord. rewrite domainId_ok, bind_run.
      unfold apiDeleteDNSRecord, record_call. cbn [DeleteDNSRecord MemStore_client].
      unfold memDelete. rewrite Hstore.
      rewrite (entry_found K k rec Hrec HkK).
      rewrite (step_delete K k rec Hrec HkK Hd).
      unfold mret, M_ret.
      match goal with
      | |- context [reconcileCurrent _ _ _ _ keys ?d ?w1] =>
          destruct (IH ({[k]} ∪ K) d w1 Hnd (Hrest d (or_introl eq_refl)) eq_refl)
            as (w' & E & Hs & Hn)
      end.
      exists w'. cbn in E |- *. rewrite E, (Hwant0 Ein). repeat split.
      * now rewrite Hs, Hset.
      * exact Hn.
Qed.

End UpdateRoundTrip.

Section UpdateRoundTripCreate.

Variable p : MyraSecDNSProvider.
Variable rt : Runtime.
Variable ep : endpoint.Endpoint.
Variable domainID : Z.
Hypothesis domainId_ok : Strconv.Atoi (domainId p) = inr domainID.

Local Abbreviation dnsName := (fullName p ep).
Local Abbreviation recordType := (endpoint.RecordType ep).
Local Abbreviation ttl := (endpointTTL p ep).
Local Abbreviation desired := (desiredValues ep).

Lemma inGroup_newRecord (v : string) (id : Z) :
  inGroup dnsName recordType (withID (newRecord p dnsName recordType v ttl) id) = true.
Proof. unfold inGroup. cbn. now rewrite !String.eqb_refl. Qed.

Lemma drifted_newRecord (v : string) (id : Z) :
  drifted p dnsName ttl (withID (newRecord p dnsName recordType v ttl) id) = false.
Proof.
  unfold drifted. cbn. rewrite Z.eqb_refl, String.eqb_refl.
  now destruct (disableProtection p).
Qed.

Lemma sameKey_newRecord (v : string) (x : myrasec.DNSRecord) :
  sameKey (newRecord p dnsName recordType v ttl) x = true ->
  inGroup dnsName recordType x = true /\ myrasec.Value x = v.
Proof.
  unfold sameKey, inGroup. cbn. intros H.
  apply andb_true_iff in H as [H Hv]. apply andb_true_iff in H as [Hn Ht].
  apply String.eqb_eq in Hn, Ht, Hv.
  rewrite <- Hn, <- Ht, !String.eqb_refl. now split.
Qed.

(** The creation of a value that the store has no record of. *)
Lemma createDNSRecord_store (v : string) (w : World MemStore) :
  v ∈ desired ->
  existsb (sameKey (newRecord p dnsName recordType v ttl)) (storeRecords (client w)) = false ->
  createDNSRecord p rt dnsName recordType v ttl w
  = (inr tt,
     {| client := setRecords (client w)
                    (storeRecords (client w)
                       ++ [withID (newRecord p dnsName recordType v ttl)
                             (storeNextID (client w))])
                    (storeNextID (client w) + 1);
        calls := calls w ++ [CallCreateDNSRecord (newRecord p dnsName recordType v ttl)
                               domainID];
        ranges := ranges w |}).
Proof.
  intros Hd Hfresh. unfold createDNSRecord. rewrite domainId_ok.
  unfold apiCreateDNSRecord, record_call. cbn [CreateDNSRecord MemStore_client].
  rewrite (desiredValues_formatted ep v Hd). unfold memCreate.
  fold (newRecord p dnsName recordType v ttl). now rewrite Hfresh.
Qed.

(** Step 2 on the reference backend: every desired value that no
    matching record has is created. *)
Lemma create_loop_store (vals : list string) :
  forall (have : gset string) (w : World MemStore),
    List.NoDup vals ->
    (forall v, In v vals -> v ∈ desired /\ v ∉ have) ->
    ConvergedOn p ep have (storeRecords (client w)) ->
    exists w',
      forEach vals (fun val => createDNSRecord p rt dnsName recordType val ttl) w
      = (inr tt, w')
      /\ ConvergedOn p ep (list_to_set vals ∪ have) (storeRecords (client w')).
Proof.
  induction vals as [|v vals IH]; intros have w Hnd Hvals Hconv; cbn [forEach].
  - exists w. split; [reflexivity |].
    assert (E : (list_to_set [] : gset string) ∪ have = have) by set_solver.
    now rewrite E.
  - apply NoDup_cons_iff in Hnd as [Hv Hnd].
    destruct (Hvals v (or_introl eq_refl)) as [Hd Hh].
    destruct Hconv as [Ha Hb].
    assert (Hfresh : existsb (sameKey (newRecord p dnsName recordType v ttl))
                       (storeRecords (client w)) = false).
    { apply not_true_is_false. intros H. apply existsb_exists in H as (x & Hx & Hk).
      apply sameKey_newRecord in Hk as [Hg Hval].
      destruct (Ha x Hx Hg) as (_ & _ & Hin). rewrite Hval in Hin. contradiction. }
    rewrite bind_run, (createDNSRecord_store v w Hd Hfresh).
    set (r' := withID (newRecord p dnsName recordType v ttl) (storeNextID (client w))).
    match goal with
    | |- context [forEach vals _ ?w1] =>
        destruct (IH ({[v]} ∪ have) w1 Hnd) as (w' & E & Hconv')
    end.
    + intros v' Hv'. destruct (Hvals v' (or_intror Hv')) as [Hd' Hh'].
      split; [exact Hd' |]. assert (v' <> v) by (intros ->; contradiction). set_solver.
    + cbn [client storeRecords setRecords]. split.
      * intros r Hr Hg. apply in_app_or in Hr as [Hr | [<- | []]].
        -- destruct (Ha r Hr Hg) as (H1 & H2 & H3). repeat split; [exact H1 | exact H2 |].
           set_solver.
        -- repeat split; [exact Hd | apply drifted_newRecord | set_solver].
      * intros v' Hd' Hh'. destruct (decide (v' = v)) as [-> | Hne].
        -- exists r'. repeat split; [apply in_or_app; right; now left | apply inGroup_newRecord].
        -- destruct (Hb v' Hd') as (r & Hr & Hg & Hval); [set_solver |].
           exists r. repeat split; [apply in_or_app; now left | exact Hg | exact Hval].
    + exists w'. rewrite E. split; [reflexivity |].
      assert (Es : (list_to_set (v :: vals) : gset string) ∪ have
                   = list_to_set vals ∪ ({[v]} ∪ have)) by set_solver.
      now rewrite Es.
Qed.

End UpdateRoundTripCreate.

(** Against records that hold the desired state, the update path has
    nothing to send. *)
Lemma converged_no_updateCall (p : MyraSecDNSProvider) (ep : endpoint.Endpoint)
    (records : list myrasec.DNSRecord) (i : Z) (c : Call) :
  Converged p ep records -> updateCall p records ep i c -> False.
Proof.
  intros [Ha Hb]. destruct c as [| | r j | r j | r j]; cbn; try tauto.
  - intros (_ & v & Hv & Hnone & _).
    destruct (Hb v Hv) as (x & Hx & Hg & Hval).
    assert (Hsome : is_Some (retained p records ep v)).
    { unfold retained. rewrite <- Hval. apply currentByValue_some.
      now apply inGroup_findMatchingRecords. }
    rewrite Hnone in Hsome. now destruct Hsome.
  - intros (_ & v & rec & Hret & _ & Hdr & _).
    unfold retained in Hret. apply currentByValue_lookup in Hret as [Hin _].
    apply inGroup_findMatchingRecords in Hin as [Hin Hg].
    destruct (Ha rec Hin Hg) as [_ Hno]. congruence.
  - intros (_ & v & Hret & Hv).
    unfold retained in Hret. apply currentByValue_lookup in Hret as [Hin Hval].
    apply inGroup_findMatchingRecords in Hin as [Hin Hg].
    destruct (Ha r Hin Hg) as [Hd _]. rewrite Hval in Hd. contradiction.
Qed.

Lemma omap_settled_empty (p : MyraSecDNSProvider) (ep : endpoint.Endpoint)
    (records : list myrasec.DNSRecord) :
  omap (settled p ep ∅) records = records.
Proof.
  induction records as [|r l IH]; cbn; [reflexivity |].
  unfold settled at 1. rewrite bool_decide_eq_false_2 by set_solver.
  rewrite andb_false_r. cbn. now rewrite IH.
Qed.

Section UpdateRoundTripTask.

Variable p : MyraSecDNSProvider.
Variable rt : Runtime.
Variable ep : endpoint.Endpoint.
Variable domainID : Z.
Hypothesis domainId_ok : Strconv.Atoi (domainId p) = inr domainID.
Hypothesis rt_ok : RangeOrderOK rt.

(** The update of an owned endpoint on the reference backend succeeds and
    leaves records that hold the desired state. *)
Lemma updateEndpoint_store (txtRecords : gmap string string) (w : World MemStore) :
  StoreOK (client w) ->
  blocked rt ep = false ->
  ownedName p txtRecords ep = true ->
  exists w',
    updateEndpoint p rt (storeRecords (client w)) txtRecords ep w = (inr tt, w')
    /\ Converged p ep (storeRecords (client w')).
Proof.
  intros (Hids & _ & Hkeys) Hb Ho.
  unfold updateEndpoint. fold (blocked rt ep). rewrite Hb, Ho. cbn [negb].
  set (records := storeRecords (client w)) in *.
  set (current := currentByValue
                    (findMatchingRecords records (fullName p ep) (endpoint.RecordType ep))).
  rewrite bind_run. unfold rangeKeys at 1.
  set (keys := rangeOrder rt (ranges w) (map_to_list current).*1).
  pose proof (rt_ok (ranges w) (map_to_list current).*1) as Hperm. fold keys in Hperm.
  assert (Hnd : List.NoDup keys).
  { apply NoDup_ListNoDup. rewrite Hperm. apply NoDup_fst_map_to_list. }
  assert (Hdom : forall k, In k keys <-> is_Some (current !! k)).
  { intros k. rewrite <- list_elem_of_In, Hperm, list_elem_of_fmap. split.
    - intros ([k' rec] & -> & Hk). apply elem_of_map_to_list in Hk. now exists rec.
    - intros [rec Hrec]. exists (k, rec). split; [reflexivity |].
      now apply elem_of_map_to_list. }
  rewrite bind_run.
  match goal with
  | |- context [reconcileCurrent _ _ _ _ keys _ ?w1] =>
      destruct (reconcileCurrent_store p ep domainID domainId_ok records Hids Hkeys keys
                  ∅ (desiredValues ep) w1 Hnd) as (w2 & E2 & Hs2 & _)
  end.
  { intros k Hk. repeat split; [set_solver | now apply Hdom | auto | auto]. }
  { cbn. fold records. now rewrite omap_settled_empty. }
  fold current in E2. rewrite E2.
  assert (Hconv : ConvergedOn p ep (list_to_set keys) (storeRecords (client w2))).
  { rewrite Hs2.
    assert (EK : (list_to_set keys : gset string) ∪ ∅ = list_to_set keys) by set_solver.
    rewrite EK. split.
    - intros r Hr Hg. apply In_omap in Hr as (x & Hx & Hset). unfold settled in Hset.
      destruct (inGroup (fullName p ep) (endpoint.RecordType ep) x) eqn:Hgx; cbn [andb] in Hset.
      + assert (Hkx : myrasec.Value x ∈ (list_to_set keys : gset string)).
        { apply elem_of_list_to_set, list_elem_of_In, Hdom.
          apply currentByValue_some. now apply inGroup_findMatchingRecords. }
        rewrite (bool_decide_eq_true_2 _ Hkx) in Hset.
        destruct (bool_decide (myrasec.Value x ∈ desiredValues ep)) eqn:Hdx; [|discriminate].
        injection Hset as <-. apply bool_decide_eq_true in Hdx.
        repeat split; [exact Hdx | apply drifted_corrected | exact Hkx].
      + injection Hset as <-. congruence.
    - intros v Hv Hk. apply elem_of_list_to_set, list_elem_of_In, Hdom in Hk as [rec Hrec].
      destruct (current_entry p ep records v rec Hrec) as (Hin & Hg & Hval).
      exists (corrected p (fullName p ep) (endpointTTL p ep) rec). repeat split.
      + apply In_omap. exists rec. split; [exact Hin |].
        unfold settled. rewrite Hg, Hval. cbn [andb].
        rewrite bool_decide_eq_true_2
          by (apply elem_of_list_to_set, list_elem_of_In, Hdom; now exists rec).
        now rewrite (bool_decide_eq_true_2 _ Hv).
      + now apply inGroup_corrected.
      + exact Hval. }
  rewrite bind_run. unfold rangeKeys at 1.
  set (want := desiredValues ep ∖ list_to_set keys).
  set (vals := rangeOrder rt (ranges w2) (elements want)).
  pose proof (rt_ok (ranges w2) (elements want)) as Hpv. fold vals in Hpv.
  assert (Hndv : List.NoDup vals).
  { apply NoDup_ListNoDup. rewrite Hpv. apply NoDup_elements. }
  assert (Hvals : forall v, In v vals <-> v ∈ want).
  { intros v. now rewrite <- list_elem_of_In, Hpv, elem_of_elements. }
  match goal with
  | |- context [forEach vals _ ?w3] =>
      destruct (create_loop_store p rt ep domainID domainId_ok vals (list_to_set keys) w3 Hndv)
        as (w4 & E4 & Hc4)
  end.
  { intros v Hv. apply Hvals in Hv. unfold want in Hv. set_solver. }
  { exact Hconv. }
  exists w4. split; [exact E4 |].
  destruct Hc4 as [Ha Hb']. split.
  - intros r Hr Hg. destruct (Ha r Hr Hg) as (H1 & H2 & _). now split.
  - intros v Hv. apply Hb'; [exact Hv |].
    destruct (decide (v ∈ (list_to_set keys : gset string))) as [Hk | Hk]; [set_solver |].
    apply elem_of_union. left. apply elem_of_list_to_set, list_elem_of_In, Hvals.
    unfold want. set_solver.
Qed.

(** The run of an update task on the reference backend: the list call,
    then the endpoint on the records of the store. *)
Lemma processUpdateActions_mem (old : option endpoint.Endpoint) (w : World MemStore) :
  processUpdateActions p rt [old] [ep] w
  = forEach [ep] (updateEndpoint p rt (storeRecords (client w))
                    (indexTXT (storeRecords (client w))))
      {| client := client w; calls := calls w ++ [CallListDNSRecords domainID];
         ranges := ranges w |}.
Proof.
  unfold processUpdateActions. cbn [length Nat.eqb negb]. now rewrite domainId_ok.
Qed.

Lemma snapshot_mem (w : World MemStore) : snapshot p w = storeRecords (client w).
Proof. unfold snapshot. now rewrite domainId_ok. Qed.

End UpdateRoundTripTask.

(** An update task applied twice on the reference backend: the first
    application succeeds and the second one sends no mutation. *)
Lemma update_task_round_trip (p : MyraSecDNSProvider) (rt : Runtime)
    (old : option endpoint.Endpoint) (ep : endpoint.Endpoint) (w : World MemStore) :
  RangeOrderOK rt ->
  StoreOK (client w) ->
  (forall i, Strconv.Atoi (domainId p) = inr i ->
             fst (processUpdateActions p rt [old] [ep] w) = inr tt)
  /\ Forall (fun c => isMutation c = false)
       (issued (processUpdateActions p rt [old] [ep])
          (snd (processUpdateActions p rt [old] [ep] w))).
Proof.
  intros Hrt Hok.
  assert (Hrun : forall i, Strconv.Atoi (domainId p) = inr i ->
            fst (processUpdateActions p rt [old] [ep] w) = inr tt
            /\ (Converged p ep (storeRecords (client (snd (processUpdateActions p rt [old] [ep] w))))
                \/ (client (snd (processUpdateActions p rt [old] [ep] w)) = client w
                    /\ (blocked rt ep = true
                        \/ ownedName p (indexTXT (storeRecords (client w))) ep = false)))).
  { intros i Hi. rewrite (processUpdateActions_mem p rt ep i Hi old w).
    cbn [forEach]. rewrite bind_run.
    set (w0 := {| client := client w; calls := calls w ++ [CallListDNSRecords i];
                  ranges := ranges w |}).
    destruct (blocked rt ep) eqn:Hb.
    - unfold updateEndpoint. fold (blocked rt ep). rewrite Hb. cbn. auto.
    - destruct (ownedName p (indexTXT (storeRecords (client w))) ep) eqn:Ho.
      + destruct (updateEndpoint_store p rt ep i Hi Hrt _ w0 Hok Hb Ho) as (w' & E & Hc).
        change (storeRecords (client w0)) with (storeRecords (client w)) in E.
        rewrite E. cbn. auto.
      + unfold updateEndpoint. fold (blocked rt ep). rewrite Hb, Ho. cbn. auto. }
  split; [intros i Hi; apply (Hrun i Hi) |].
  set (w1 := snd (processUpdateActions p rt [old] [ep] w)) in *.
  eapply Forall_impl; [apply (update_task_calls p rt old ep w1 Hrt) |].
  intros c [[i ->] | (i & Hi & Hb & Ho & Hc)]; [reflexivity |]. exfalso.
  rewrite (snapshot_mem p i Hi) in Ho, Hc.
  destruct (Hrun i Hi) as [_ [Hconv | [Hsame [Hb' | Ho']]]].
  - exact (converged_no_updateCall p ep _ i c Hconv Hc).
  - congruence.
  - rewrite Hsame in Ho. congruence.
Qed.

(** ** The round trip of a delete task on the reference backend *)

Section DeleteRoundTrip.

Variable p : MyraSecDNSProvider.
Variable ep : endpoint.Endpoint.
Variable domainID : Z.
Hypothesis domainId_ok : Strconv.Atoi (domainId p) = inr domainID.

Variable records : list myrasec.DNSRecord.
Hypothesis ids_distinct : List.NoDup (List.map myrasec.ID records).

(** The deletion of a record that the store has. *)
Lemma deleteDNSRecord_store (r : myrasec.DNSRecord) (w : World MemStore) :
  existsb (hasID (myrasec.ID r)) (storeRecords (client w)) = true ->
  deleteDNSRecord p r w
  = (inr tt,
     {| client := setRecords (client w)
                    (List.filter (fun x => negb (hasID (myrasec.ID r) x))
                       (storeRecords (client w)))
                    (storeNextID (client w));
        calls := calls w ++ [CallDeleteDNSRecord r domainID];
        ranges := ranges w |}).
Proof.
  intros Hfound. unfold deleteDNSRecord. rewrite domainId_ok, bind_run.
  unfold apiDeleteDNSRecord, record_call. cbn [DeleteDNSRecord MemStore_client].
  unfold memDelete. now rewrite Hfound.
Qed.

(** The body of the loop over the matching records. *)
Local Abbreviation deleteBody :=
  (fun record : myrasec.DNSRecord =>
     if negb (bool_decide (myrasec.Value record ∈ targetsToDelete ep))
     then (mret tt : M MemStore unit)
     else deleteDNSRecord p record).

(** The loop on the reference backend: every call succeeds, and the
    records of the store are those of the snapshot but for the deleted
    ones. *)
Lemma delete_loop_store (l : list myrasec.DNSRecord) :
  forall (gone : list Z) (w : World MemStore),
    List.NoDup (List.map myrasec.ID l) ->
    (forall r, In r l -> In r records /\ ~ In (myrasec.ID r) gone) ->
    (forall x, In x (storeRecords (client w)) <-> In x records /\ ~ In (myrasec.ID x) gone) ->
    exists w' gone',
      forEach l deleteBody w = (inr tt, w')
      /\ (forall x, In x (storeRecords (client w'))
                    <-> In x records /\ ~ In (myrasec.ID x) gone')
      /\ (forall z, In z gone -> In z gone')
      /\ (forall r, In r l -> myrasec.Value r ∈ targetsToDelete ep ->
                    In (myrasec.ID r) gone').
Proof.
  induction l as [|r l IH]; intros gone w Hnd Hl Hstore; cbn [forEach].
  - exists w, gone. split; [reflexivity |]. split; [exact Hstore |].
    split; [auto | intros r []].
  - cbn [List.map] in Hnd. apply NoDup_cons_iff in Hnd as [Hr Hnd].
    destruct (Hl r (or_introl eq_refl)) as [Hin Hng].
    rewrite bind_run.
    destruct (bool_decide (myrasec.Value r ∈ targetsToDelete ep)) eqn:Ev; cbn [negb].
    + assert (Hfound : existsb (hasID (myrasec.ID r)) (storeRecords (client w)) = true).
      { apply existsb_exists. exists r. split; [now apply Hstore |].
        unfold hasID. apply Z.eqb_refl. }
      rewrite (deleteDNSRecord_store r w Hfound).
      match goal with
      | |- context [forEach l _ ?w1] =>
          destruct (IH (myrasec.ID r :: gone) w1 Hnd) as (w' & gone' & E & Hs & Hm & Hg)
      end.
      * intros x Hx. destruct (Hl x (or_intror Hx)) as [Hxin Hxg].
        split; [exact Hxin |]. intros [Heq | Hg']; [|contradiction].
        apply Hr. rewrite Heq. now apply in_map.
      * intros x. cbn [client storeRecords setRecords]. rewrite filter_In, Hstore.
        unfold hasID. rewrite negb_true_iff, Z.eqb_neq. cbn [In]. intuition congruence.
      * exists w', gone'. split; [exact E |]. split; [exact Hs |]. split.
        -- intros z Hz. apply Hm. now right.
        -- intros x [<- | Hx] Hv; [|now apply Hg]. apply Hm. now left.
    + destruct (IH gone w Hnd) as (w' & gone' & E & Hs & Hm & Hg).
      * intros x Hx. apply Hl. now right.
      * exact Hstore.
      * exists w', gone'. split; [exact E |]. split; [exact Hs |]. split; [exact Hm |].
        intros x [<- | Hx] Hv; [|now apply Hg].
        apply bool_decide_eq_false in Ev. contradiction.
Qed.

End DeleteRoundTrip.

Lemma NoDup_map_filter {A C} (f : A -> C) (q : A -> bool) (l : list A) :
  List.NoDup (List.map f l) -> List.NoDup (List.map f (List.filter q l)).
Proof.
  induction l as [|x l IH]; cbn; [auto |].
  intros H. apply NoDup_cons_iff in H as [Hx Hnd].
  destruct (q x); cbn; [|now apply IH].
  apply NoDup_cons_iff. split; [|now apply IH].
  intros Hin. apply Hx. apply in_map_iff in Hin as (y & Hy & Hin).
  apply filter_In in Hin as [Hin _]. apply in_map_iff. now exists y.
Qed.

(** The calls of a delete task: the list call, and for the endpoint only
    deletions of matching records of the snapshot whose value is among the
    targets. *)
Lemma delete_task_calls {B : Type} `{!MyraSecAPIClient B}
    (p : MyraSecDNSProvider) (rt : Runtime) (ep : endpoint.Endpoint) (w : World B) :
  Forall (fun c => (exists i, c = CallListDNSRecords i)
                   \/ exists i r, Strconv.Atoi (domainId p) = inr i
                        /\ blocked rt ep = false
                        /\ ownedName p (indexTXT (snapshot p w)) ep = true
                        /\ c = CallDeleteDNSRecord r i
                        /\ In r (snapshot p w)
                        /\ inGroup (fullName p ep) (endpoint.RecordType ep) r = true
                        /\ myrasec.Value r ∈ targetsToDelete ep)
    (issued (processDeleteActions p rt [ep]) w).
Proof.
  destruct (processDeleteActions_run p rt [ep] w)
    as [-> | (i & Hi & [-> | (w1 & _ & _ & ->)])].
  - constructor.
  - constructor; [left; now exists i | constructor].
  - constructor; [left; now exists i |].
    assert (Hm : emits (forEach [ep]
                          (deleteEndpoint p rt (snapshot p w) (indexTXT (snapshot p w))))
                   (fun c => blocked rt ep = false
                      /\ ownedName p (indexTXT (snapshot p w)) ep = true
                      /\ exists r j, c = CallDeleteDNSRecord r j
                         /\ In r (findMatchingRecords (snapshot p w) (fullName p ep)
                                    (endpoint.RecordType ep))
                         /\ myrasec.Value r ∈ targetsToDelete ep)
                   (fun _ => True)).
    { apply emits_forEach. intros x [<- | []]. apply deleteEndpoint_calls. }
    assert (Hid : emits (forEach [ep]
                          (deleteEndpoint p rt (snapshot p w) (indexTXT (snapshot p w))))
                   (fun c => forall r j, c = CallDeleteDNSRecord r j -> j = i)
                   (fun _ => True)).
    { apply emits_forEach. intros x _. unfold deleteEndpoint.
      destruct (isProduction rt && isPrivateEndpoint x); [now apply emits_ret |].
      destruct (negb _); [now apply emits_ret |].
      destruct (Nat.eqb _ 0); [now apply emits_ret |].
      apply emits_forEach. intros r _.
      destruct (negb _); [now apply emits_ret |].
      apply emits_deleteDNSRecord. intros j Hj r' j' [= _ <-]. congruence. }
    destruct (issued_emits _ _ _ w1 Hm) as [_ HP].
    destruct (issued_emits _ _ _ w1 Hid) as [_ HI].
    rewrite Forall_forall in HP, HI. apply Forall_forall. intros c Hc.
    destruct (HP c Hc) as (Hb & Ho & r & j & -> & Hr & Hv).
    apply inGroup_findMatchingRecords in Hr as [Hr Hg].
    right. exists i, r. rewrite (HI _ Hc r j eq_refl). now repeat split.
Qed.

(** A delete task applied twice on the reference backend: the first
    application succeeds and the second one sends no mutation. *)
Lemma delete_task_round_trip (p : MyraSecDNSProvider) (rt : Runtime)
    (ep : endpoint.Endpoint) (w : World MemStore) :
  StoreOK (client w) ->
  (forall i, Strconv.Atoi (domainId p) = inr i ->
             fst (processDeleteActions p rt [ep] w) = inr tt)
  /\ Forall (fun c => isMutation c = false)
       (issued (processDeleteActions p rt [ep])
          (snd (processDeleteActions p rt [ep] w))).
Proof.
  intros (Hids & _ & _).
  set (run := processDeleteActions p rt [ep] w).
  assert (Hrun : forall i, Strconv.Atoi (domainId p) = inr i ->
            fst run = inr tt
            /\ ((forall r, In r (storeRecords (client (snd run))) ->
                   inGroup (fullName p ep) (endpoint.RecordType ep) r = true ->
                   myrasec.Value r ∈ targetsToDelete ep -> False)
                \/ (client (snd run) = client w
                    /\ (blocked rt ep = true
                        \/ ownedName p (indexTXT (storeRecords (client w))) ep = false)))).
  { intros i Hi. unfold run, processDeleteActions. cbn [length Nat.eqb].
    rewrite Hi. unfold apiListDNSRecords, record_call.
    cbn [ListDNSRecords MemStore_client forEach]. rewrite bind_run.
    set (w0 := {| client := client w; calls := calls w ++ [CallListDNSRecords i];
                  ranges := ranges w |}).
    unfold deleteEndpoint. fold (blocked rt ep).
    destruct (blocked rt ep) eqn:Hb; [cbn; auto |].
    destruct (ownedName p (indexTXT (storeRecords (client w))) ep) eqn:Ho; cbn [negb];
      [|cbn; auto].
    set (matching := findMatchingRecords (storeRecords (client w)) (fullName p ep)
                       (endpoint.RecordType ep)).
    destruct (Nat.eqb (length matching) 0) eqn:Elen.
    - cbn. split; [reflexivity |]. left. intros r Hr Hg _.
      apply Nat.eqb_eq, length_zero_iff_nil in Elen.
      assert (Hin : In r matching) by (now apply inGroup_findMatchingRecords).
      now rewrite Elen in Hin.
    - destruct (delete_loop_store p ep i Hi (storeRecords (client w)) matching [] w0)
        as (w' & gone' & E & Hs & _ & Hg).
      + now apply NoDup_map_filter.
      + intros r Hr. apply inGroup_findMatchingRecords in Hr as [Hr _]. now split.
      + intros x. cbn. tauto.
      + rewrite E. cbn. split; [reflexivity |]. left. intros r Hr Hgr Hv.
        apply Hs in Hr as [Hr Hng]. apply Hng, Hg; [|exact Hv].
        now apply inGroup_findMatchingRecords. }
  split; [intros i Hi; apply (Hrun i Hi) |].
  eapply Forall_impl; [apply (delete_task_calls p rt ep (snd run)) |].
  intros c [[i ->] | (i & r & Hi & Hb & Ho & -> & Hr & Hg & Hv)]; [reflexivity |]. exfalso.
  rewrite (snapshot_mem p i Hi) in Ho, Hr.
  destruct (Hrun i Hi) as [_ [Hnone | [Hsame [Hb' | Ho']]]].
  - exact (Hnone r Hr Hg Hv).
  - congruence.
  - rewrite Hsame in Ho. congruence.
Qed.

(** ** The round trip of a create task on the reference backend *)

Section CreateRoundTrip.

Variable p : MyraSecDNSProvider.
Variable rt : Runtime.
Variable domainID : Z.
Hypothesis domainId_ok : Strconv.Atoi (domainId p) = inr domainID.

(** The store has a record of the key of [r]. *)
Local Abbreviation covered := (fun (w : World MemStore) (r : myrasec.DNSRecord) =>
  existsb (sameKey r) (storeRecords (client w)) = true).

Lemma sameKey_withID (r : myrasec.DNSRecord) (id : Z) : sameKey r (withID r id) = true.
Proof. unfold sameKey. cbn. now rewrite !String.eqb_refl. Qed.

(** A create call on the reference backend: it succeeds, leaves a record
    of the key in the store, keeps the records there were, and changes
    nothing if the key was there. *)
Lemma createDNSRecord_mem (dnsName recordType value : string) (ttl : Z) (w : World MemStore) :
  let r := newRecord p dnsName recordType (formatRecordValue value recordType) ttl in
  exists w',
    createDNSRecord p rt dnsName recordType value ttl w = (inr tt, w')
    /\ calls w' = calls w ++ [CallCreateDNSRecord r domainID]
    /\ covered w' r
    /\ (forall r', covered w r' -> covered w' r')
    /\ (covered w r -> client w' = client w).
Proof.
  intros r. unfold createDNSRecord. rewrite domainId_ok.
  unfold apiCreateDNSRecord, record_call. cbn [CreateDNSRecord MemStore_client].
  fold (newRecord p dnsName recordType (formatRecordValue value recordType) ttl). fold r.
  unfold memCreate. destruct (existsb (sameKey r) (storeRecords (client w))) eqn:E.
  - eexists. split; [reflexivity |]. cbn. repeat split; auto.
  - eexists. split; [reflexivity |]. cbn. repeat split.
    + rewrite existsb_app. cbn. now rewrite sameKey_withID, orb_true_r.
    + intros r' H. rewrite existsb_app, H. reflexivity.
    + discriminate.
Qed.

(** The loop over the targets. *)
Lemma create_targets_mem (dnsName recordType : string) (ttl : Z) (targets : list string) :
  forall w : World MemStore,
    exists w',
      forEach targets
        (fun target => createDNSRecord p rt dnsName recordType
                         (formatRecordValue target recordType) ttl) w
      = (inr tt, w')
      /\ calls w'
         = calls w ++ List.map (fun target =>
                        CallCreateDNSRecord
                          (newRecord p dnsName recordType
                             (formatRecordValue target recordType) ttl) domainID) targets
      /\ (forall t, In t targets ->
            covered w' (newRecord p dnsName recordType (formatRecordValue t recordType) ttl))
      /\ (forall r', covered w r' -> covered w' r')
      /\ ((forall t, In t targets ->
             covered w (newRecord p dnsName recordType (formatRecordValue t recordType) ttl))
          -> client w' = client w).
Proof.
  induction targets as [|t targets IH]; intros w; cbn [forEach List.map].
  - exists w. rewrite app_nil_r. repeat split; solve [auto | intros t []].
  - destruct (createDNSRecord_mem dnsName recordType (formatRecordValue t recordType) ttl w)
      as (w1 & E1 & Hc1 & Hcov1 & Hmono1 & Hsame1).
    rewrite formatRecordValue_idem in Hc1, Hcov1, Hsame1.
    destruct (IH w1) as (w2 & E2 & Hc2 & Hcov2 & Hmono2 & Hsame2).
    exists w2. rewrite bind_run, E1, E2. split; [reflexivity |]. repeat split.
    + rewrite Hc2, Hc1, <- app_assoc. reflexivity.
    + intros t' [<- | Ht']; [now apply Hmono2 | now apply Hcov2].
    + intros r' H. now apply Hmono2, Hmono1.
    + intros H. rewrite Hsame2.
      * apply Hsame1, H. now left.
      * intros t' Ht'. apply Hmono1, H. now right.
Qed.

(** The keys of the records a create task sends for an endpoint. *)
Lemma createEndpoint_mem (ep : endpoint.Endpoint) (w : World MemStore) :
  exists w' (sent : list myrasec.DNSRecord),
    createEndpoint p rt ep w = (inr tt, w')
    /\ calls w' = calls w ++ List.map (fun r => CallCreateDNSRecord r domainID) sent
    /\ (forall r, In r sent -> covered w' r)
    /\ ((forall r, In r sent -> covered w r) -> client w' = client w)
    /\ (forall w0 : World MemStore, exists w0',
          createEndpoint p rt ep w0 = (inr tt, w0')
          /\ calls w0' = calls w0 ++ List.map (fun r => CallCreateDNSRecord r domainID) sent
          /\ ((forall r, In r sent -> covered w0 r) -> client w0' = client w0)).
Proof.
  unfold createEndpoint.
  destruct (isProduction rt && isPrivateEndpoint ep).
  { exists w, []. cbn. rewrite app_nil_r. repeat split; auto; try (intros r []).
    intros w0. exists w0. cbn. rewrite app_nil_r. now repeat split. }
  set (dnsName := fullName p ep). set (ttl := endpointTTL p ep).
  set (recordType := endpoint.RecordType ep).
  set (txt := ownershipValue p (<[endpoint.OwnerLabelKey:=owner p]> (endpoint.Labels ep))).
  set (targetRecords := List.map (fun t => newRecord p dnsName recordType
                                  (formatRecordValue t recordType) ttl)
                          (endpoint.Targets ep)).
  set (sent := targetRecords
               ++ if negb (String.eqb recordType RecordTypeTXT)
                  then [newRecord p dnsName RecordTypeTXT
                          (formatRecordValue txt RecordTypeTXT) ttl]
                  else []).
  assert (Hgen : forall w0 : World MemStore, exists w0',
            (forEach (endpoint.Targets ep)
               (fun target => createDNSRecord p rt dnsName recordType
                                (formatRecordValue target recordType) ttl) ;;
             (if negb (String.eqb recordType RecordTypeTXT)
              then createDNSRecord p rt dnsName RecordTypeTXT txt ttl
              else mret tt)) w0 = (inr tt, w0')
            /\ calls w0' = calls w0 ++ List.map (fun r => CallCreateDNSRecord r domainID) sent
            /\ (forall r, In r sent -> covered w0' r)
            /\ ((forall r, In r sent -> covered w0 r) -> client w0' = client w0)).
  { intros w0.
    destruct (create_targets_mem dnsName recordType ttl (endpoint.Targets ep) w0)
      as (w1 & E1 & Hc1 & Hcov1 & Hmono1 & Hsame1).
    rewrite bind_run, E1. unfold sent.
    assert (Hcalls1 : calls w1 = calls w0
              ++ List.map (fun r => CallCreateDNSRecord r domainID) targetRecords).
    { rewrite Hc1. unfold targetRecords. now rewrite List.map_map. }
    assert (HcovT : forall w2 : World MemStore, (forall r', covered w1 r' -> covered w2 r') ->
              forall r, In r targetRecords -> covered w2 r).
    { intros w2 Hm r Hr. apply in_map_iff in Hr as (t & <- & Ht). now apply Hm, Hcov1. }
    assert (HsameT : (forall r, In r targetRecords -> covered w0 r) -> client w1 = client w0).
    { intros H. apply Hsame1. intros t Ht. apply H, in_map_iff. now exists t. }
    destruct (negb (String.eqb recordType RecordTypeTXT)).
    - destruct (createDNSRecord_mem dnsName RecordTypeTXT txt ttl w1)
        as (w2 & E2 & Hc2 & Hcov2 & Hmono2 & Hsame2).
      exists w2. rewrite E2. split; [reflexivity |]. repeat split.
      + rewrite Hc2, Hcalls1, List.map_app, <- app_assoc. reflexivity.
      + intros r Hr. apply in_app_or in Hr as [Hr | [<- | []]];
          [now apply (HcovT w2 Hmono2) | exact Hcov2].
      + intros H. rewrite Hsame2.
        * apply HsameT. intros r Hr. apply H, in_or_app. now left.
        * apply Hmono1, H, in_or_app. right. now left.
    - exists w1. split; [reflexivity |]. repeat split.
      + now rewrite app_nil_r.
      + intros r Hr. rewrite app_nil_r in Hr. now apply (HcovT w1).
      + intros H. apply HsameT. intros r Hr. apply H. now rewrite app_nil_r. }
  destruct (Hgen w) as (w' & E & Hc & Hcov & Hsame).
  exists w', sent. repeat split; try assumption.
  intros w0. destruct (Hgen w0) as (w0' & E0 & Hc0 & _ & Hsame0).
  exists w0'. now repeat split.
Qed.

End CreateRoundTrip.

(** A create task applied twice on the reference backend: both
    applications succeed, the second one sends the create calls of the
    first one again, and it leaves the store as the first one left it. *)
Lemma create_task_round_trip (p : MyraSecDNSProvider) (rt : Runtime)
    (ep : endpoint.Endpoint) (w : World MemStore) (i : Z) :
  Strconv.Atoi (domainId p) = inr i ->
  let run := processCreateActions p rt [ep] in
  fst (run w) = inr tt
  /\ fst (run (snd (run w))) = inr tt
  /\ issued run (snd (run w)) = issued run w
  /\ client (snd (run (snd (run w)))) = client (snd (run w)).
Proof.
  intros Hi run. unfold run, processCreateActions, issued. cbn [forEach].
  destruct (createEndpoint_mem p rt i Hi ep w) as (w1 & sent & E1 & Hc1 & Hcov1 & _ & Hgen).
  destruct (Hgen w1) as (w2 & E2 & Hc2 & Hsame2).
  rewrite !bind_run, E1. cbn. rewrite E2. cbn.
  rewrite Hc2, Hc1, !drop_app_length. repeat split.
  now apply Hsame2.
Qed.

(** ** Round-trip idempotence *)

(** C4 (the claim as stated fails). A batch with one creation, applied
    to the empty reference backend and then applied again to the backend
    state the first application produced: both applications succeed, and
    the second one issues the two create calls again. *)
Lemma C4_counterexample :
  let '(r1, p1, w1) := ApplyChanges exampleProvider devRuntime createChanges
                         (start (exampleStore [])) in
  let '(r2, _, w2) := ApplyChanges p1 devRuntime createChanges w1 in
  r1 = inr tt /\ r2 = inr tt
  /\ List.filter isMutation (List.skipn (length (calls w1)) (calls w2))
     = [CallCreateDNSRecord (mkRecord 0 "a.example.com" "A" "1.1.1.1" 300) 123;
        CallCreateDNSRecord (mkRecord 0 "a.example.com" "TXT" ownerToken 300) 123].
Proof. vm_compute. repeat split; reflexivity. Qed.

(** C4 (amended). Round-trip idempotence of single tasks on a backend
    that stores the records as sent, from a store with distinct record
    identifiers and no two records of the same name, type and value:
    applying an update task, or a delete task, and then applying it again
    to the backend state the first application produced issues no
    additional mutation call, and the first application succeeds. A create
    task applied again does issue its create calls again; it succeeds, and
    it leaves the backend state as the first application left it. *)
Theorem C4_task_round_trip (p : MyraSecDNSProvider) (rt : Runtime)
    (old : option endpoint.Endpoint) (ep : endpoint.Endpoint) (w : World MemStore) :
  RangeOrderOK rt ->
  StoreOK (client w) ->
  Forall (fun c => isMutation c = false)
    (issued (processUpdateActions p rt [old] [ep])
       (snd (processUpdateActions p rt [old] [ep] w)))
  /\ Forall (fun c => isMutation c = false)
       (issued (processDeleteActions p rt [ep])
          (snd (processDeleteActions p rt [ep] w)))
  /\ (forall i, Strconv.Atoi (domainId p) = inr i ->
        fst (processUpdateActions p rt [old] [ep] w) = inr tt
        /\ fst (processDeleteActions p rt [ep] w) = inr tt
        /\ fst (processCreateActions p rt [ep] w) = inr tt
        /\ fst (processCreateActions p rt [ep] (snd (processCreateActions p rt [ep] w)))
           = inr tt
        /\ issued (processCreateActions p rt [ep]) (snd (processCreateActions p rt [ep] w))
           = issued (processCreateActions p rt [ep]) w
        /\ client (snd (processCreateActions p rt [ep]
                          (snd (processCreateActions p rt [ep] w))))
           = client (snd (processCreateActions p rt [ep] w))).
Proof.
  intros Hrt Hok.
  destruct (update_task_round_trip p rt old ep w Hrt Hok) as [Hu1 Hu2].
  destruct (delete_task_round_trip p rt ep w Hok) as [Hd1 Hd2].
  split; [exact Hu2 |]. split; [exact Hd2 |].
  intros i Hi.
  destruct (create_task_round_trip p rt ep w i Hi) as (Hc1 & Hc2 & Hc3 & Hc4).
  split; [now apply Hu1 with (i := i) |]. split; [now apply Hd1 with (i := i) |].
  now repeat split.
Qed.

(** The store of the witness is in order. *)
Lemma exampleStore_ok :
  StoreOK (exampleStore [mkRecord 1 "a.example.com" "TXT" ownerToken 300;
                         mkRecord 2 "a.example.com." "A" "1.1.1.1" 300;
                         mkRecord 3 "a.example.com" "A" "2.2.2.2" 60]).
Proof.
  split; [|split].
  - cbn. repeat constructor; cbn; intuition discriminate.
  - intros r Hr. cbn in Hr. destruct Hr as [<- | [<- | [<- | []]]]; cbn; lia.
  - intros r1 r2 H1 H2. cbn in H1, H2.
    destruct H1 as [<- | [<- | [<- | []]]], H2 as [<- | [<- | [<- | []]]];
      vm_compute; intros H; try reflexivity; discriminate.
Defined.

(** An update that deletes one record, corrects one and creates one, and
    its second application. *)
Lemma C4_witness :
  let ep := mkEndpoint "a.example.com" "A" ["2.2.2.2"; "3.3.3.3"] in
  let w := start (exampleStore [mkRecord 1 "a.example.com" "TXT" ownerToken 300;
                                mkRecord 2 "a.example.com." "A" "1.1.1.1" 300;
                                mkRecord 3 "a.example.com" "A" "2.2.2.2" 60]) in
  RangeOrderOK devRuntime
  /\ StoreOK (client w)
  /\ Forall (fun c => isMutation c = false)
       (issued (processUpdateActions exampleProvider devRuntime [None] [ep])
          (snd (processUpdateActions exampleProvider devRuntime [None] [ep] w)))
  /\ Forall (fun c => isMutation c = false)
       (issued (processDeleteActions exampleProvider devRuntime [ep])
          (snd (processDeleteActions exampleProvider devRuntime [ep] w))).
Proof.
  intros ep w.
  destruct (C4_task_round_trip exampleProvider devRuntime None ep w devRuntime_ok
              exampleStore_ok) as (Hu & Hd & _).
  split; [exact devRuntime_ok |]. split; [exact exampleStore_ok |].
  split; [exact Hu | exact Hd].
Defined.
